(** * CoTrading-FE: the streaming event-aggregation core

    A shallow embedding of the chat client's streaming core:

    - the payload normalizer ([normalizeEscapes],
      [extractTextFromPythonLiteral], [ensureString], [extractStreamText],
      [extractFinalText]);
    - the event stream adapter of [api/sse.ts] ([openConversationStream] and
      its per-frame handler [forward]);
    - the transcript aggregator ([updateLastAssistantPart],
      [handleStreamPayload]);
    - the session controller ([openStream], [sendMessage], [loadMessages],
      [stop]).

    JavaScript values are modelled by the inductive type [JSValue]; React
    state is threaded explicitly through a record [ChatState]; a callback
    that may throw returns a [Completion]. *)

From Stdlib Require Import ZArith Lia Bool Ascii String DecimalString.
From stdpp Require Import base list.

Local Open Scope string_scope.
Local Open Scope list_scope.

(** ** Characters and strings

    A [string] is a sequence of code units; only code units below 256 are
    represented.  [is_space] is the ECMAScript white space and line
    terminator set restricted to that range: it is what [String.prototype.trim]
    strips and what the regular expression class [\s] matches. *)

Definition dquote : ascii := ascii_of_nat 34.
Definition squote : ascii := ascii_of_nat 39.
Definition backslash : ascii := ascii_of_nat 92.
Definition newline : ascii := ascii_of_nat 10.
Definition tab : ascii := ascii_of_nat 9.

Definition is_space (c : ascii) : bool :=
  let n := nat_of_ascii c in
  ((9 <=? n)%nat && (n <=? 13)%nat) || (n =? 32)%nat || (n =? 160)%nat.

Fixpoint trimStart (s : string) : string :=
  match s with
  | EmptyString => EmptyString
  | String c s' => if is_space c then trimStart s' else s
  end.

Fixpoint trimEnd (s : string) : string :=
  match s with
  | EmptyString => EmptyString
  | String c s' =>
      match trimEnd s' with
      | EmptyString => if is_space c then EmptyString else String c EmptyString
      | r => String c r
      end
  end.

(** [s.trim()] *)
Definition trim (s : string) : string := trimEnd (trimStart s).

(** [stripPrefix p s] is the rest of [s] after the literal [p], if [s]
    starts with [p]. *)
Fixpoint stripPrefix (p s : string) : option string :=
  match p with
  | EmptyString => Some s
  | String a p' =>
      match s with
      | EmptyString => None
      | String b s' => if Ascii.eqb a b then stripPrefix p' s' else None
      end
  end.

(** [s.startsWith(p)] *)
Definition startsWith (p s : string) : bool :=
  match stripPrefix p s with
  | Some _ => true
  | None => false
  end.

(** [s.includes(c)] for a one-character needle. *)
Fixpoint includesChar (c : ascii) (s : string) : bool :=
  match s with
  | EmptyString => false
  | String b s' => Ascii.eqb c b || includesChar c s'
  end.

(** The longest prefix of characters satisfying [p], and the rest: a greedy
    starred character class. *)
Fixpoint span (p : ascii -> bool) (s : string) : string * string :=
  match s with
  | EmptyString => (EmptyString, EmptyString)
  | String c s' =>
      if p c then let '(a, b) := span p s' in (String c a, b)
      else (EmptyString, s)
  end.

(** [s.replace] of the two-character pattern backslash, [x] with the flag
    [g]: every backslash followed by [x] becomes [r],
    left to right, without overlap. *)
Fixpoint replaceEscape (x r : ascii) (s : string) : string :=
  match s with
  | EmptyString => EmptyString
  | String c s' =>
      match s' with
      | String d s'' =>
          if Ascii.eqb c backslash && Ascii.eqb d x
          then String r (replaceEscape x r s'')
          else String c (replaceEscape x r s')
      | EmptyString => String c EmptyString
      end
  end.

Definition normalizeEscapes (text : string) : string :=
  replaceEscape "t" tab (replaceEscape "n" newline text).

(** *** The regular expressions of the source

    Each pattern is a literal, a greedy class of characters that excludes
    the character that must follow it, and a literal: a failed attempt at
    one start position cannot be repaired by backtracking, so matching at
    a position is one left-to-right pass. *)

Definition notQuote (c : ascii) : bool := negb (Ascii.eqb c squote).

(** One attempt, at the start of [s], of the first pattern of
    [extractTextFromPythonLiteral]: the literal ['text':], any white space,
    a quote, the captured group of any number of characters other than a
    quote, and a quote.  The result is the captured group and the length
    of the whole match. *)
Definition matchTextAt (s : string) : option (string * nat) :=
  match stripPrefix "'text':" s with
  | Some r1 =>
      match snd (span is_space r1) with
      | String q r2 =>
          if Ascii.eqb q squote then
            let '(cap, r3) := span notQuote r2 in
            match r3 with
            | String _ r4 => Some (cap, String.length s - String.length r4)
            | EmptyString => None
            end
          else None
      | EmptyString => None
      end
  | None => None
  end.

(** [raw.matchAll] of that pattern with the flag [g], keeping the captured
    groups.  [skip] counts the characters still covered by the previous match: the
    search resumes where that match ended. *)
Fixpoint matchAllText (skip : nat) (s : string) : list string :=
  match skip with
  | S k =>
      match s with
      | EmptyString => []
      | String _ s' => matchAllText k s'
      end
  | O =>
      match matchTextAt s with
      | Some (cap, len) =>
          cap :: match s with
                 | EmptyString => []
                 | String _ s' => matchAllText (len - 1) s'
                 end
      | None =>
          match s with
          | EmptyString => []
          | String _ s' => matchAllText 0 s'
          end
      end
  end.

(** One attempt, at the start of [s], of the second pattern: the literal
    [content='], the captured group of one or more characters other than a
    quote, and a quote. *)
Definition matchContentAt (s : string) : option string :=
  match stripPrefix "content='" s with
  | Some r1 =>
      let '(cap, r2) := span notQuote r1 in
      match cap, r2 with
      | String _ _, String _ _ => Some cap
      | _, _ => None
      end
  | None => None
  end.

(** [raw.match] of that pattern: the group of the leftmost match. *)
Fixpoint matchContent (s : string) : option string :=
  match matchContentAt s with
  | Some cap => Some cap
  | None =>
      match s with
      | EmptyString => None
      | String _ s' => matchContent s'
      end
  end.

Definition concatStrings (l : list string) : string :=
  fold_right String.append EmptyString l.

(** [l.join(sep)] for strings. *)
Fixpoint joinStrings (sep : string) (l : list string) : string :=
  match l with
  | [] => ""
  | [x] => x
  | x :: rest => (x ++ sep ++ joinStrings sep rest)%string
  end.

Definition extractTextFromPythonLiteral (raw : string) : option string :=
  match matchAllText 0 raw with
  | (_ :: _) as matches => Some (normalizeEscapes (concatStrings matches))
  | [] =>
      match matchContent raw with
      | Some cap => Some (normalizeEscapes cap)
      | None => None
      end
  end.

(** One attempt of [HTTP\s+404] at the start of [s]. *)
Definition matchHttp404At (s : string) : bool :=
  match stripPrefix "HTTP" s with
  | Some r1 =>
      match span is_space r1 with
      | (String _ _, r2) => startsWith "404" r2
      | (EmptyString, _) => false
      end
  | None => false
  end.

(** [/HTTP\s+404/.test(s)] *)
Fixpoint testHttp404 (s : string) : bool :=
  matchHttp404At s ||
  match s with
  | EmptyString => false
  | String _ s' => testHttp404 s'
  end.

(** ** JavaScript values

    The values the code handles as [any]: what [JSON.parse] produces, and
    [undefined].  Numbers are observed only through their truthiness and
    their conversion to a string, and are modelled by integers.  An object
    is the list of its own properties in insertion order. *)

#[warnings="-register-all"]
Inductive JSValue : Type :=
  | JUndefined
  | JNull
  | JBool (b : bool)
  | JNum (n : Z)
  | JStr (s : string)
  | JArr (items : list JSValue)
  | JObj (fields : list (string * JSValue)).

Fixpoint lookupField (k : string) (fields : list (string * JSValue)) : JSValue :=
  match fields with
  | [] => JUndefined
  | (k', v) :: rest => if String.eqb k k' then v else lookupField k rest
  end.

(** [v?.k] for a property name [k] that no prototype defines: the own
    property of an object, [undefined] for everything else. *)
Definition getProp (v : JSValue) (k : string) : JSValue :=
  match v with
  | JObj fields => lookupField k fields
  | _ => JUndefined
  end.

Definition hasField (k : string) (fields : list (string * JSValue)) : bool :=
  existsb (fun kv => String.eqb k (fst kv)) fields.

(** Truthiness: [if (v)], [!v], [v && ...]. *)
Definition truthy (v : JSValue) : bool :=
  match v with
  | JUndefined | JNull => false
  | JBool b => b
  | JNum n => negb (Z.eqb n 0)
  | JStr s => negb (String.eqb s "")
  | JArr _ | JObj _ => true
  end.

(** [a ?? b] *)
Definition nullish (a b : JSValue) : JSValue :=
  match a with
  | JUndefined | JNull => b
  | _ => a
  end.

Definition isArray (v : JSValue) : bool :=
  match v with JArr _ => true | _ => false end.

Definition isString (v : JSValue) : bool :=
  match v with JStr _ => true | _ => false end.

(** The size of a value: a lower bound on the length of any JSON text
    that denotes it. *)
Fixpoint jsize (v : JSValue) : nat :=
  match v with
  | JStr s => S (String.length s)
  | JArr items => S (list_sum (map jsize items))
  | JObj fields => S (list_sum (map (fun kv => let '(_, x) := kv in jsize x) fields))
  | JUndefined => 0
  | _ => 1
  end.

(** [Array.prototype.join]: the texts, when every element has one. *)
Fixpoint joinWith (sep : string) (texts : list (option string)) : option string :=
  match texts with
  | [] => Some ""
  | [t] => t
  | t :: rest =>
      match t, joinWith sep rest with
      | Some a, Some b => Some (a ++ sep ++ b)%string
      | _, _ => None
      end
  end.

(** The decimal text of an integer. *)
Definition decimal (n : Z) : string := NilZero.string_of_int (Z.to_int n).

(** Conversion to a string, as [String(v)] and [v.toString()] perform it;
    [None] is a [TypeError].  An array joins its elements with a comma,
    [null] and [undefined] elements giving the empty text; an object gives
    ["[object Object]"] unless an own property hides [toString]: a JSON
    value is never callable, and the conversion then fails. *)
Fixpoint jsToString (v : JSValue) : option string :=
  match v with
  | JUndefined => Some "undefined"
  | JNull => Some "null"
  | JBool b => Some (if b then "true" else "false")
  | JNum n => Some (decimal n)
  | JStr s => Some s
  | JArr items =>
      joinWith ","
        (map (fun x => match x with
                       | JUndefined | JNull => Some ""
                       | _ => jsToString x
                       end) items)
  | JObj fields =>
      if hasField "toString" fields then None else Some "[object Object]"
  end.

(** ** Effects

    What a function that may throw leaves behind: the state reached, and
    whether it returned or threw. *)

Inductive Completion (W : Type) : Type :=
  | Normal (w : W)
  | Throw (w : W).
Arguments Normal {W} w.
Arguments Throw {W} w.

Definition stateOf {W : Type} (c : Completion W) : W :=
  match c with Normal w | Throw w => w end.

(** What a [setState] updater hands back: the array it was given ([Same],
    no render follows) or a new one. *)
Inductive Update (A : Type) : Type :=
  | Same
  | Changed (next : A).
Arguments Same {A}.
Arguments Changed {A} next.

(** A thrown value: an [Error] with its message, or anything else. *)
Inductive Thrown : Type :=
  | ThrownError (message : string)
  | ThrownValue (v : JSValue).

(** The message of the [TypeError] and of the [RangeError] the engine
    raises; the text depends on the engine. *)
Definition typeErrorMessage : string := "TypeError".
Definition rangeErrorMessage : string := "Invalid time value".

(** ** The data model *)

Record ChatMessage : Type := mkChatMessage {
  msg_id : string;
  role : string;
  parts : list JSValue;
  createdAt : string
}.

Inductive Status : Type := Ready | Submitted | Streaming.

Inductive PartType : Type := TextPart | ReasoningPart.

Definition partTypeName (t : PartType) : string :=
  match t with TextPart => "text" | ReasoningPart => "reasoning" end.

(** [toast({ type: "error", description })] *)
Record Toast : Type := mkToast {
  toast_type : string;
  description : JSValue
}.

Definition errorToast (d : JSValue) : Toast := mkToast "error" d.

(** An [EventSource]: the handle the browser gives, and its URL. *)
Record EventSource : Type := mkEventSource {
  es_handle : nat;
  es_url : string
}.

Inductive RestCall : Type :=
  | PostConversations (content : string)
  | PostConversationsMessages (cid content : string)
  | GetConversationsMessages (cid : string).

(** The state of the [Chat] component and of what it acts on: the React
    state and refs, the notifications shown, the streams closed, the REST
    calls issued. *)
Record ChatState : Type := mkChatState {
  status : Status;
  messages : list ChatMessage;
  transcriptRenders : nat;
  conversationId : option string;
  conversationIdRef : option string;
  eventSourceRef : option EventSource;
  dataStream : list JSValue;
  toasts : list Toast;
  closedSources : list EventSource;
  restCalls : list RestCall;
  location : option string;
  fresh : nat
}.

(** *** The REST collaborator *)

Record MessageStart : Type := mkMessageStart {
  ms_user_message_id : option string;
  ms_assistant_message_id : option string
}.

Record CreateResponse : Type := mkCreateResponse {
  conversation_id : option string;
  message_start : option MessageStart;
  started : bool
}.

Record AppendResponse : Type := mkAppendResponse {
  user_message_id : option string;
  assistant_message_id : option string
}.

Record BackendMessage : Type := mkBackendMessage {
  message_id : option string;
  bm_role : option string;
  content : option string;
  created_at : option string;
  events : option (list JSValue)
}.

(** The world outside the component: the answers of the backend, the
    identifiers and the clock, and whether an [EventSource] can be built
    for a URL. *)
Record Env : Type := mkEnv {
  api_postConversations : string -> Thrown + option CreateResponse;
  api_postConversationsMessages :
    string -> string -> Thrown + option AppendResponse;
  api_getConversationsMessages :
    string -> Thrown + option (list BackendMessage);
  generateUUID : nat -> string;
  now : string;
  toISOString : string -> option string;
  base_url : string;
  eventSourceOk : string -> bool
}.

(** [l.includes(x)], [set.has(x)] *)
Definition inList (x : string) (l : list string) : bool :=
  existsb (String.eqb x) l.

(** ** The options of the event stream adapter ([api/sse.ts]) *)

Definition DEFAULT_SSE_EVENTS : list string :=
  [ "message"; "on_chat_model_stream"; "on_llm_stream";
    "on_chat_model_stream_chunk"; "on_chat_model_start";
    "on_chat_model_end"; "on_tool_start"; "on_tool_end";
    "on_chain_start"; "on_chain_end"; "on_chain_error" ].

Definition DEFAULT_FINAL_AGENTS : list string :=
  [ "ReAct Agent"; "Supervisor Agent" ].

(** The options of a stream over a world [W] the callbacks act on. *)
Record ConversationStreamOptions (W : Type) : Type := mkOptions {
  opt_events : option (list string);
  onEvent : option (JSValue -> string -> W -> Completion W);
  onError : option (W -> Completion W);
  onComplete : option (W -> Completion W);
  finalAgents : option (list string)
}.
Arguments opt_events {W} _.
Arguments onEvent {W} _.
Arguments onError {W} _.
Arguments onComplete {W} _.
Arguments finalAgents {W} _.

(** A callback the adapter invoked. *)
Inductive Call : Type :=
  | CallEvent (payload : JSValue) (name : string)
  | CallComplete
  | CallError.

(** ** Sample data

    A [JSON.parse] restricted to a few texts, a backend that is down, and
    two states of the component, used to run the definitions on concrete
    inputs. *)

Definition quoted (s : string) : string :=
  String dquote (s ++ String dquote EmptyString)%string.

Definition objectText (members : list (string * string)) : string :=
  ("{" ++ joinStrings ","
            (map (fun kv => (quoted (fst kv) ++ ":" ++ quoted (snd kv))%string)
               members)
       ++ "}")%string.

Definition objectValue (members : list (string * string)) : JSValue :=
  JObj (map (fun kv => (fst kv, JStr (snd kv))) members).

Definition sampleObjects : list (list (string * string)) :=
  [ [("content", "Hi")];
    [("event", "on_chain_end"); ("name", "ReAct Agent")];
    [("event", "on_chain_end"); ("name", "Planner")];
    [("event", "on_chat_model_stream"); ("content", "Hel")] ].

Definition sampleParse (text : string) : option JSValue :=
  match find (fun members => String.eqb text (objectText members))
          sampleObjects with
  | Some members => Some (objectValue members)
  | None => None
  end.

Definition sampleEnv : Env :=
  {| api_postConversations := fun _ => inl (ThrownError "HTTP 503");
     api_postConversationsMessages := fun _ _ => inl (ThrownError "HTTP 503");
     api_getConversationsMessages := fun cid =>
       if String.eqb cid "unknown"
       then inl (ThrownError "HTTP 404: Not Found")
       else inl (ThrownError "HTTP 500: Internal Server Error");
     generateUUID := fun n => ("uuid-" ++ decimal (Z.of_nat n))%string;
     now := "2025-01-01T00:00:00.000Z";
     toISOString := fun s => Some s;
     base_url := "http://localhost:8000";
     eventSourceOk := fun _ => true |}.

Definition userTurn : ChatMessage :=
  mkChatMessage "u1" "user"
    [ JObj [("type", JStr "text"); ("text", JStr "buy 1 ETH")] ]
    "2025-01-01T00:00:00.000Z".

Definition assistantTurn : ChatMessage :=
  mkChatMessage "a1" "assistant"
    [ JObj [("type", JStr "text"); ("text", JStr "")] ]
    "2025-01-01T00:00:00.000Z".

Definition sampleSource : EventSource :=
  mkEventSource 0 "http://localhost:8000/conversations/c1/stream".

Definition streamingState : ChatState :=
  mkChatState Streaming [userTurn; assistantTurn] 2 (Some "c1") (Some "c1")
    (Some sampleSource) [] [] [] [PostConversations "buy 1 ETH"]
    (Some "/chat/c1") 1.

Definition readyState : ChatState :=
  mkChatState Ready [userTurn; assistantTurn] 2 (Some "c1") (Some "c1")
    None [] [] [] [PostConversations "buy 1 ETH"] (Some "/chat/c1") 1.

(** Options whose event callback throws. *)
Definition throwingOptions : ConversationStreamOptions ChatState :=
  {| opt_events := None;
     onEvent := Some (fun _ _ st => Throw st);
     onError := None;
     onComplete := Some (fun st => Normal st);
     finalAgents := None |}.

(** Payloads of a stream, and a frame that ends the graph. *)

Definition helPayload : JSValue :=
  JObj [("event", JStr "on_chat_model_stream");
        ("chunk", JObj [("content", JStr "Hel")])].

Definition loPayload : JSValue :=
  JObj [("event", JStr "on_chat_model_stream");
        ("chunk", JObj [("content", JStr "lo")])].

Definition reasoningPayload : JSValue :=
  JObj [("event", JStr "on_chat_model_stream");
        ("chunk", JObj [("reasoning", JStr "why")])].

Definition emptyPayload : JSValue :=
  JObj [("event", JStr "on_chat_model_stream"); ("chunk", JObj [])].

Definition finalPayload : JSValue :=
  JObj [("event", JStr "on_chat_model_end");
        ("data", JObj [("output", JObj [("content", JStr "Final answer");
                                        ("reasoning", JStr "because...")])])].

Definition chainErrorPayload : JSValue :=
  JObj [("event", JStr "on_chain_error");
        ("data", JObj [("message", JStr "rate limited")])].

Definition graphEndText : string :=
  objectText [("event", "on_chain_end"); ("name", "ReAct Agent")].

Definition graphEndPayload : JSValue :=
  objectValue [("event", "on_chain_end"); ("name", "ReAct Agent")].

#[global] Instance PartType_eq_dec : EqDecision PartType.
Proof. solve_decision. Defined.

(** A backend that answers: it accepts a message and starts an answer,
    and it has a history of two items. *)
Definition sampleHistory : list BackendMessage :=
  [ mkBackendMessage (Some "u1") (Some "user") (Some "buy 1 ETH") None None;
    mkBackendMessage (Some "a1") None (Some "Done.") None
      (Some [ JObj [("data",
                     JObj [("output", JObj [("reasoning", JStr "because")])])] ]) ].

Definition workingEnv : Env :=
  {| api_postConversations := fun _ =>
       inr (Some (mkCreateResponse (Some "c2")
                    (Some (mkMessageStart (Some "u2") (Some "a2"))) true));
     api_postConversationsMessages := fun _ _ =>
       inr (Some (mkAppendResponse (Some "u2") (Some "a2")));
     api_getConversationsMessages := fun _ => inr (Some sampleHistory);
     generateUUID := fun n => ("uuid-" ++ decimal (Z.of_nat n))%string;
     now := "2025-01-01T00:00:00.000Z";
     toISOString := fun s => Some s;
     base_url := "http://localhost:8000";
     eventSourceOk := fun _ => true |}.

Definition sellMessage : list JSValue :=
  [ JObj [("type", JStr "text"); ("text", JStr " sell 1 ETH ")] ].

Definition blankMessage : list JSValue :=
  [ JObj [("type", JStr "file"); ("url", JStr "chart.png")];
    JObj [("type", JStr "text"); ("text", JStr "  ")] ].

Definition toolPayload : JSValue :=
  JObj [("event", JStr "on_tool_start"); ("name", JStr "price_lookup")].

Definition annotatedParts : list JSValue :=
  [ JObj [("type", JStr "text"); ("text", JStr "Hel"); ("state", JStr "done")];
    JObj [("type", JStr "reasoning"); ("text", JStr "why")] ].


(** ** The payload normalizer *)

Section Client.

(** [JSON.parse]: [None] when it throws a [SyntaxError]. *)
Variable JSON_parse : string -> option JSValue.

(** A JSON text is at least as long as the value it denotes is big: every
    literal, every character of a string and every bracket of an array or
    an object takes at least one character of the text.  This is what
    makes [ensureString] terminate when it parses a string and calls
    itself on the result. *)
Hypothesis JSON_parse_size :
  forall text v, JSON_parse text = Some v -> jsize v <= String.length text.

(** The text of one element of an array given to [ensureString]. *)
Definition partText (part : JSValue) : string :=
  match part with
  | JStr s => s
  | _ => match getProp part "text" with
         | JStr t => t
         | _ => ""
         end
  end.

(** Does the string look like a JSON object or array? *)
Definition looksLikeJson (trimmed : string) : bool :=
  (startsWith "{" trimmed || startsWith "[" trimmed)
  && includesChar dquote trimmed.

(** [ensureString] calls itself on the properties of its argument and on
    the value parsed from a string argument.  The latter is not a part of
    the argument, so the recursion is driven by [fuel]; the outer [None]
    is "out of fuel", [Some None] is the result [null]. *)
Fixpoint ensureString_fuel (fuel : nat) (value : JSValue) : option (option string) :=
  match fuel with
  | O => None
  | S fuel' =>
      match value with
      | JStr s =>
          let trimmed := trim s in
          let plain :=
            match extractTextFromPythonLiteral s with
            | Some lit => Some lit
            | None => Some (normalizeEscapes s)
            end in
          if looksLikeJson trimmed then
            match JSON_parse trimmed with
            | Some parsed =>
                match ensureString_fuel fuel' parsed with
                | None => None
                | Some (Some (String c r)) => Some (Some (String c r))
                | Some _ => Some plain
                end
            | None => Some plain
            end
          else Some plain
      | JArr items =>
          let joined := concatStrings (map partText items) in
          Some (if (0 <? String.length joined)%nat then Some joined else None)
      | JObj fields =>
          match getProp value "text" with
          | JStr t => Some (Some t)
          | _ =>
              let content := getProp value "content" in
              if isArray content then ensureString_fuel fuel' content
              else if isString content then ensureString_fuel fuel' content
              else
                let delta := getProp value "delta" in
                if isArray delta then ensureString_fuel fuel' delta
                else
                  match getProp value "choices" with
                  | JArr (choice :: _) =>
                      if truthy (getProp choice "delta")
                      then ensureString_fuel fuel' (getProp choice "delta")
                      else if truthy (getProp choice "message")
                      then ensureString_fuel fuel' (getProp choice "message")
                      else Some None
                  | _ => Some None
                  end
          end
      | _ => Some None
      end
  end.

Definition ensureString (value : JSValue) : option string :=
  match ensureString_fuel (S (jsize value)) value with
  | Some r => r
  | None => None
  end.

(** The loop of the two extractors: the first candidate whose text is a
    non-empty string. *)
Fixpoint firstText (candidates : list JSValue) : option string :=
  match candidates with
  | [] => None
  | candidate :: rest =>
      match ensureString candidate with
      | Some (String c r) => Some (String c r)
      | _ => firstText rest
      end
  end.

Definition streamCandidates (payload : JSValue) : list JSValue :=
  let chunk := getProp payload "chunk" in
  let data := getProp payload "data" in
  let dchunk := getProp data "chunk" in
  [ getProp chunk "content"; getProp chunk "text"; getProp chunk "delta";
    chunk;
    getProp dchunk "content"; getProp dchunk "text"; getProp dchunk "delta";
    dchunk;
    getProp data "content"; getProp data "text";
    getProp payload "delta"; getProp payload "content" ].

Definition extractStreamText (payload : JSValue) : option string :=
  if truthy payload then firstText (streamCandidates payload) else None.

Definition finalCandidates (payload : JSValue) : list JSValue :=
  let data := getProp payload "data" in
  let doutput := getProp data "output" in
  let output := getProp payload "output" in
  [ getProp doutput "content"; getProp doutput "text"; doutput;
    getProp data "content"; getProp data "text";
    getProp output "content"; getProp output "text"; output;
    getProp payload "content"; getProp payload "message";
    getProp payload "delta" ].

Definition extractFinalText (payload : JSValue) : option string :=
  if truthy payload then firstText (finalCandidates payload) else None.


(** ** The event stream adapter ([api/sse.ts]) *)

Section Adapter.
Context {W : Type}.
Variable opts : ConversationStreamOptions W.

Definition names : list string :=
  match opt_events opts with
  | Some l => l
  | None => DEFAULT_SSE_EVENTS
  end.

Definition final : list string :=
  match finalAgents opts with
  | Some l => l
  | None => DEFAULT_FINAL_AGENTS
  end.

(** [payload?.event === 'on_chain_end' && final.has(payload?.name)] *)
Definition isGraphEnd (payload : JSValue) : bool :=
  match getProp payload "event" with
  | JStr e =>
      String.eqb e "on_chain_end" &&
      match getProp payload "name" with
      | JStr n => inList n final
      | _ => false
      end
  | _ => false
  end.

(** The listener of the channel [name], given the [data] of a frame
    ([None] when the frame has none): the world it leaves and the
    callbacks it invoked, in order.  The [try] of the source covers
    the event callback and the completion callback. *)
Definition forward (name : string) (data : option string) (w : W)
  : W * list Call :=
  match data with
  | None | Some EmptyString => (w, [])
  | Some text =>
      match JSON_parse text with
      | None => (w, [])
      | Some payload =>
          let '(afterEvent, calls) :=
            match onEvent opts with
            | Some f => (f payload name w, [CallEvent payload name])
            | None => (Normal w, [])
            end in
          match afterEvent with
          | Throw w1 => (w1, calls)
          | Normal w1 =>
              if isGraphEnd payload then
                match onComplete opts with
                | Some g => (stateOf (g w1), calls ++ [CallComplete])
                | None => (w1, calls)
                end
              else (w1, calls)
          end
      end
  end.

(** A frame of the channel [channel] reaches every listener
    [names.forEach] registered under that name. *)
Fixpoint dispatchTo (listeners : list string) (channel : string)
  (data : option string) (w : W) : W * list Call :=
  match listeners with
  | [] => (w, [])
  | n :: rest =>
      if String.eqb n channel then
        let '(w1, c1) := forward n data w in
        let '(w2, c2) := dispatchTo rest channel data w1 in
        (w2, c1 ++ c2)
      else dispatchTo rest channel data w
  end.

Definition dispatchFrame := dispatchTo names.

(** [source.onerror] *)
Definition sourceError (w : W) : W * list Call :=
  match onError opts with
  | Some f => (stateOf (f w), [CallError])
  | None => (w, [])
  end.

End Adapter.

Variable env : Env.

(** [openConversationStream]: the [EventSource] built for the
    conversation, [None] when its constructor throws.  The listeners it
    installs are [dispatchFrame] and [sourceError] at the same options. *)
Definition streamUrl (cid : string) : string :=
  (base_url env ++ "/conversations/" ++ cid ++ "/stream")%string.

Definition openConversationStream (cid : string) (handle : nat)
  : option EventSource :=
  if eventSourceOk env (streamUrl cid)
  then Some (mkEventSource handle (streamUrl cid))
  else None.

(** ** React state setters *)

Definition setStatus (s : Status) (st : ChatState) : ChatState :=
  mkChatState s (messages st) (transcriptRenders st) (conversationId st)
    (conversationIdRef st) (eventSourceRef st) (dataStream st) (toasts st)
    (closedSources st) (restCalls st) (location st) (fresh st).

(** [setMessages(updater)]: React renders again only when the updater
    hands back another array. *)
Definition setMessages (updater : list ChatMessage -> Update (list ChatMessage))
  (st : ChatState) : ChatState :=
  match updater (messages st) with
  | Same => st
  | Changed next =>
      mkChatState (status st) next (S (transcriptRenders st))
        (conversationId st) (conversationIdRef st) (eventSourceRef st)
        (dataStream st) (toasts st) (closedSources st) (restCalls st)
        (location st) (fresh st)
  end.

Definition setDataStream (updater : list JSValue -> list JSValue)
  (st : ChatState) : ChatState :=
  mkChatState (status st) (messages st) (transcriptRenders st)
    (conversationId st) (conversationIdRef st) (eventSourceRef st)
    (updater (dataStream st)) (toasts st) (closedSources st) (restCalls st)
    (location st) (fresh st).

Definition toast (t : Toast) (st : ChatState) : ChatState :=
  mkChatState (status st) (messages st) (transcriptRenders st)
    (conversationId st) (conversationIdRef st) (eventSourceRef st)
    (dataStream st) (toasts st ++ [t]) (closedSources st) (restCalls st)
    (location st) (fresh st).

Definition setEventSourceRef (r : option EventSource) (st : ChatState)
  : ChatState :=
  mkChatState (status st) (messages st) (transcriptRenders st)
    (conversationId st) (conversationIdRef st) r
    (dataStream st) (toasts st) (closedSources st) (restCalls st)
    (location st) (fresh st).

Definition closeSource (src : EventSource) (st : ChatState) : ChatState :=
  mkChatState (status st) (messages st) (transcriptRenders st)
    (conversationId st) (conversationIdRef st) (eventSourceRef st)
    (dataStream st) (toasts st) (closedSources st ++ [src]) (restCalls st)
    (location st) (fresh st).

Definition issue (c : RestCall) (st : ChatState) : ChatState :=
  mkChatState (status st) (messages st) (transcriptRenders st)
    (conversationId st) (conversationIdRef st) (eventSourceRef st)
    (dataStream st) (toasts st) (closedSources st) (restCalls st ++ [c])
    (location st) (fresh st).

(** The new conversation: the ref, the state and the address bar. *)
Definition adoptConversation (cid : string) (st : ChatState) : ChatState :=
  mkChatState (status st) (messages st) (transcriptRenders st)
    (Some cid) (Some cid) (eventSourceRef st)
    (dataStream st) (toasts st) (closedSources st) (restCalls st)
    (Some ("/chat/" ++ cid)%string) (fresh st).

Definition takeFresh (st : ChatState) : nat * ChatState :=
  (fresh st,
   mkChatState (status st) (messages st) (transcriptRenders st)
     (conversationId st) (conversationIdRef st) (eventSourceRef st)
     (dataStream st) (toasts st) (closedSources st) (restCalls st)
     (location st) (S (fresh st))).


(** ** The transcript aggregator *)

Definition isPartOfType (partType : PartType) (part : JSValue) : bool :=
  match getProp part "type" with
  | JStr t => String.eqb t (partTypeName partType)
  | _ => false
  end.

(** [parts.findIndex(p)] *)
Fixpoint findIndex {A : Type} (p : A -> bool) (l : list A) : option nat :=
  match l with
  | [] => None
  | x :: rest =>
      if p x then Some 0
      else match findIndex p rest with
           | Some i => Some (S i)
           | None => None
           end
  end.

(** The text the turn holds for a kind of part: the string [text] of the
    first part of that kind, the empty string when there is none. *)
Definition previousTextOf (partType : PartType) (msgParts : list JSValue)
  : string :=
  match findIndex (isPartOfType partType) msgParts with
  | Some idx =>
      match msgParts !! idx with
      | Some part =>
          match getProp part "text" with
          | JStr t => t
          | _ => ""
          end
      | None => ""
      end
  | None => ""
  end.

(** [obj.k = v] on the properties of an object literal: an existing key
    keeps its place. *)
Fixpoint setField (k : string) (v : JSValue) (fields : list (string * JSValue))
  : list (string * JSValue) :=
  match fields with
  | [] => [(k, v)]
  | (k', v') :: rest =>
      if String.eqb k k' then (k, v) :: rest
      else (k', v') :: setField k v rest
  end.

(** The object literal that spreads the old part (or a part of the given
    type when there was none) and then sets [type] and [text].  The part
    found by [findIndex] has a [type], so it is an object. *)
Definition rebuiltPart (partType : PartType) (old : option JSValue)
  (nextText : string) : JSValue :=
  let spread :=
    match old with
    | Some (JObj fields) => fields
    | Some JNull | Some JUndefined | None =>
        [("type", JStr (partTypeName partType))]
    | Some _ => []
    end in
  JObj (setField "text" (JStr nextText)
          (setField "type" (JStr (partTypeName partType)) spread)).

Definition withParts (m : ChatMessage) (nextParts : list JSValue)
  : ChatMessage :=
  mkChatMessage (msg_id m) (role m) nextParts (createdAt m).

(** [nextParts]: the part of the given type replaced where [findIndex]
    found it, or added at the end. *)
Definition nextPartsOf (partType : PartType) (msgParts : list JSValue)
  (nextText : string) : list JSValue :=
  match findIndex (isPartOfType partType) msgParts with
  | Some idx =>
      take idx msgParts
      ++ [rebuiltPart partType (msgParts !! idx) nextText]
      ++ drop (S idx) msgParts
  | None =>
      msgParts
      ++ [JObj [("type", JStr (partTypeName partType));
                ("text", JStr nextText)]]
  end.

(** The updater [updateLastAssistantPart] gives to [setMessages].  An
    [updater] that throws is [None]. *)
Definition lastAssistantPartUpdater (partType : PartType)
  (updater : string -> option string) (prevMessages : list ChatMessage)
  : Update (list ChatMessage) :=
  if (length prevMessages =? 0)%nat then Same
  else
    let lastIndex := length prevMessages - 1 in
    match prevMessages !! lastIndex with
    | None => Same
    | Some lastMessage =>
        if negb (String.eqb (role lastMessage) "assistant") then Same
        else
          let msgParts := parts lastMessage in
          let previousText := previousTextOf partType msgParts in
          match updater previousText with
          | None => Same
          | Some nextText =>
              if String.eqb nextText previousText then Same
              else
                let nextParts := nextPartsOf partType msgParts nextText in
                Changed (<[lastIndex := withParts lastMessage nextParts]>
                           prevMessages)
          end
    end.

Definition updateLastAssistantPart (partType : PartType)
  (updater : string -> option string) : ChatState -> ChatState :=
  setMessages (lastAssistantPartUpdater partType updater).

Definition updateAssistantMessage := updateLastAssistantPart TextPart.
Definition updateAssistantReasoning := updateLastAssistantPart ReasoningPart.

(** The four operations of the aggregator. *)
Definition appendTextDelta (chunk : string) : ChatState -> ChatState :=
  updateAssistantMessage (fun previous => Some (previous ++ chunk)%string).
Definition appendReasoningDelta (chunk : string) : ChatState -> ChatState :=
  updateAssistantReasoning (fun previous => Some (previous ++ chunk)%string).
Definition replaceFinalText (text : string) : ChatState -> ChatState :=
  updateAssistantMessage (fun _ => Some text).
Definition replaceFinalReasoning (text : string) : ChatState -> ChatState :=
  updateAssistantReasoning (fun _ => Some text).

(** [(payload.event ?? payload.type ?? "").toString()] *)
Definition eventTypeOf (payload : JSValue) : option string :=
  jsToString
    (nullish (nullish (getProp payload "event") (getProp payload "type"))
       (JStr "")).

Definition deltaEventTypes : list string :=
  [ "on_chat_model_stream"; "on_llm_stream"; "on_chat_model_stream_chunk";
    "text_delta"; "delta"; "chunk" ].

(** [appendChunk] *)
Definition appendChunk (chunk : option string) (st : ChatState) : ChatState :=
  match chunk with
  | Some (String c r) => appendTextDelta (String c r) st
  | _ => st
  end.

(** The reasoning delta a streaming payload carries. *)
Definition reasoningDeltaOf (payload : JSValue) : JSValue :=
  nullish
    (nullish (getProp (getProp payload "chunk") "reasoning")
       (getProp (getProp (getProp payload "data") "chunk") "reasoning"))
    (match getProp payload "type" with
     | JStr t =>
         if String.eqb t "reasoning-delta" then getProp payload "delta"
         else JUndefined
     | _ => JUndefined
     end).

Definition finalReasoningOf (payload : JSValue) : JSValue :=
  nullish (getProp (getProp (getProp payload "data") "output") "reasoning")
    (getProp (getProp payload "output") "reasoning").

Definition defaultChainError : string := "生成失败，请稍后重试。".

Definition handleStreamPayload (payload : JSValue) (st : ChatState)
  : Completion ChatState :=
  if negb (truthy payload) then Normal st
  else
    let st1 := setDataStream (fun prev => prev ++ [payload]) st in
    match eventTypeOf payload with
    | None => Throw st1
    | Some eventType =>
        if inList eventType deltaEventTypes then
          let st2 :=
            match extractStreamText payload with
            | Some (String c r) => appendChunk (Some (String c r)) st1
            | _ => st1
            end in
          match reasoningDeltaOf payload with
          | JStr (String c r) =>
              Normal (appendReasoningDelta (String c r) st2)
          | _ => Normal st2
          end
        else if String.eqb eventType "on_chat_model_end" then
          let st2 :=
            match extractFinalText payload with
            | Some (String c r) => replaceFinalText (String c r) st1
            | _ => st1
            end in
          match finalReasoningOf payload with
          | JStr (String c r) =>
              Normal (replaceFinalReasoning (String c r) st2)
          | _ => Normal st2
          end
        else if String.eqb eventType "on_chain_error" then
          let message :=
            nullish
              (nullish (getProp (getProp payload "data") "message")
                 (getProp (getProp payload "data") "error"))
              (JStr defaultChainError) in
          Normal (setStatus Ready (toast (errorToast message) st1))
        else Normal st1
    end.


(** ** The session controller *)

(** [if (eventSourceRef.current) { close(); eventSourceRef.current = null }] *)
Definition closeCurrent (st : ChatState) : ChatState :=
  match eventSourceRef st with
  | Some src => setEventSourceRef None (closeSource src st)
  | None => st
  end.

(** [cleanup], local to [openStream] *)
Definition cleanup (st : ChatState) : ChatState :=
  setStatus Ready (closeCurrent st).

(** The options [openStream] gives to [openConversationStream]. *)
Definition chatStreamOptions : ConversationStreamOptions ChatState :=
  {| opt_events := None;
     onEvent := Some (fun payload _ st => handleStreamPayload payload st);
     onError := Some (fun st => Normal (cleanup st));
     onComplete := Some (fun st => Normal (cleanup st));
     finalAgents := None |}.

Definition connectFailed : string := "无法连接到生成服务".

Definition openStream (cid : string) (st : ChatState) : ChatState :=
  if String.eqb cid "" then st
  else
    let st1 := closeCurrent st in
    let '(handle, st2) := takeFresh st1 in
    match openConversationStream cid handle with
    | Some source => setStatus Streaming (setEventSourceRef (Some source) st2)
    | None =>
        toast (errorToast (JStr connectFailed)) (setStatus Ready st1)
    end.

(** *** History *)

(** [event.data?.output?.reasoning ?? ""]; [None] is the [TypeError] of
    reading [data] from [null] or [undefined]. *)
Definition eventReasoning (event : JSValue) : option JSValue :=
  match event with
  | JNull | JUndefined => None
  | _ =>
      Some (nullish
              (getProp (getProp (getProp event "data") "output") "reasoning")
              (JStr ""))
  end.

Fixpoint mapOption {A B : Type} (f : A -> option B) (l : list A)
  : option (list B) :=
  match l with
  | [] => Some []
  | x :: rest =>
      match f x with
      | Some y =>
          match mapOption f rest with
          | Some ys => Some (y :: ys)
          | None => None
          end
      | None => None
      end
  end.

(** [item.events?.map(...).join("\n")]: [undefined] without events. *)
Definition reasoningOf (item : BackendMessage) : Thrown + JSValue :=
  match events item with
  | None => inr JUndefined
  | Some evs =>
      match mapOption eventReasoning evs with
      | None => inl (ThrownError typeErrorMessage)
      | Some texts =>
          match joinWith (String newline EmptyString)
                  (map (fun x => match x with
                                 | JUndefined | JNull => Some ""
                                 | _ => jsToString x
                                 end) texts) with
          | Some joined => inr (JStr joined)
          | None => inl (ThrownError typeErrorMessage)
          end
      end
  end.

Definition mapBackendMessage (item : BackendMessage) (st : ChatState)
  : (Thrown + ChatMessage) * ChatState :=
  let text := match content item with Some c => c | None => "" end in
  match reasoningOf item with
  | inl e => (inl e, st)
  | inr reasoning =>
      let stamp :=
        match created_at item with
        | Some (String c r) => toISOString env (String c r)
        | _ => Some (now env)
        end in
      match stamp with
      | None => (inl (ThrownError rangeErrorMessage), st)
      | Some created =>
          let '(ident, st1) :=
            match message_id item with
            | Some i => (i, st)
            | None => let '(n, st') := takeFresh st in (generateUUID env n, st')
            end in
          (inr (mkChatMessage ident
                  (match bm_role item with Some r => r | None => "assistant" end)
                  [ JObj [("type", JStr "reasoning"); ("text", reasoning)];
                    JObj [("type", JStr "text"); ("text", JStr text)] ]
                  created),
           st1)
      end
  end.

(** [items.map(mapBackendMessage)] *)
Fixpoint mapBackendMessages (items : list BackendMessage) (st : ChatState)
  : (Thrown + list ChatMessage) * ChatState :=
  match items with
  | [] => (inr [], st)
  | item :: rest =>
      match mapBackendMessage item st with
      | (inl e, st1) => (inl e, st1)
      | (inr m, st1) =>
          match mapBackendMessages rest st1 with
          | (inl e, st2) => (inl e, st2)
          | (inr ms, st2) => (inr (m :: ms), st2)
          end
      end
  end.

Definition loadFailed : string := "获取历史消息失败".

(** The outer [catch] of [loadMessages]. *)
Definition loadMessagesFailed (error : Thrown) (st : ChatState) : ChatState :=
  toast (errorToast (JStr match error with
                          | ThrownError message => message
                          | ThrownValue _ => loadFailed
                          end)) st.

(** [String(e?.message ?? "")]; [None] is a [TypeError]. *)
Definition thrownMessage (e : Thrown) : option string :=
  match e with
  | ThrownError message => Some message
  | ThrownValue v => jsToString (nullish (getProp v "message") (JStr ""))
  end.

(** The inner [catch] of [loadMessages]. *)
Definition historyFailed (e : Thrown) (st : ChatState) : ChatState :=
  match thrownMessage e with
  | None => loadMessagesFailed (ThrownError typeErrorMessage) st
  | Some text =>
      if testHttp404 text then setMessages (fun _ => Changed []) st
      else loadMessagesFailed e st
  end.

Definition loadMessages (targetConversationId : string) (st : ChatState)
  : ChatState :=
  if String.eqb targetConversationId "" then st
  else
    let st1 := issue (GetConversationsMessages targetConversationId) st in
    match api_getConversationsMessages env targetConversationId with
    | inl e => historyFailed e st1
    | inr data =>
        let items := match data with Some l => l | None => [] end in
        match mapBackendMessages items st1 with
        | (inl e, st2) => historyFailed e st2
        | (inr history, st2) => setMessages (fun _ => Changed history) st2
        end
    end.

(** *** Sending a message *)

(** The texts of the notices, as the bytes of the source file. *)
Definition waitForReply : string := "请等待当前回复结束后再发送".
Definition enterContent : string := "请输入要发送的内容".
Definition noConversation : string := "后端未返回会话信息".
Definition sendFailedDefault : string := "发送消息失败".

(** The [text] of the parts that are texts. *)
Fixpoint messageTexts (msgParts : list JSValue) : list string :=
  match msgParts with
  | [] => []
  | part :: rest =>
      match getProp part "type", getProp part "text" with
      | JStr ty, JStr t =>
          if String.eqb ty "text" then t :: messageTexts rest
          else messageTexts rest
      | _, _ => messageTexts rest
      end
  end.

Definition messageContent (msgParts : list JSValue) : string :=
  trim (joinStrings (String newline EmptyString) (messageTexts msgParts)).

Definition appendUserAndAssistant (msgParts : list JSValue)
  (userMessageId : string) (assistantMessageId : option string)
  (st : ChatState) : ChatState :=
  let timestamp := now env in
  let '(ident, st1) :=
    match userMessageId with
    | EmptyString => let '(n, st') := takeFresh st in (generateUUID env n, st')
    | _ => (userMessageId, st)
    end in
  let userMessage := mkChatMessage ident "user" msgParts timestamp in
  let st2 := setMessages (fun prev => Changed (prev ++ [userMessage])) st1 in
  match assistantMessageId with
  | Some (String c r) =>
      let assistantMessage :=
        mkChatMessage (String c r) "assistant"
          [ JObj [("type", JStr "text"); ("text", JStr "")] ] (now env) in
      setMessages (fun prev => Changed (prev ++ [assistantMessage])) st2
  | _ => st2
  end.

(** The [catch] of [sendMessage]. *)
Definition sendMessageFailed (error : Thrown) (st : ChatState) : ChatState :=
  toast (errorToast (JStr match error with
                          | ThrownError message => message
                          | ThrownValue _ => sendFailedDefault
                          end))
    (setStatus Ready st).

Definition isTruthyId (i : option string) : bool :=
  match i with
  | Some (String _ _) => true
  | _ => false
  end.

Definition sendMessage (msgParts : list JSValue) (st : ChatState)
  : ChatState :=
  match status st with
  | Ready =>
      let text := messageContent msgParts in
      if String.eqb text "" then
        toast (errorToast (JStr enterContent)) st
      else
        let st1 := setDataStream (fun _ => []) (setStatus Submitted st) in
        match conversationIdRef st1 with
        | Some (String c r) =>
            let activeConversationId := String c r in
            let st2 :=
              issue (PostConversationsMessages activeConversationId text) st1 in
            match api_postConversationsMessages env activeConversationId text with
            | inl e => sendMessageFailed e st2
            | inr data =>
                let '(userMessageId, st3) :=
                  match data with
                  | Some {| user_message_id := Some u |} => (u, st2)
                  | _ => let '(n, st') := takeFresh st2 in
                         (generateUUID env n, st')
                  end in
                let assistantMessageId :=
                  match data with
                  | Some d => assistant_message_id d
                  | None => None
                  end in
                let st4 :=
                  appendUserAndAssistant msgParts userMessageId
                    assistantMessageId st3 in
                if isTruthyId assistantMessageId
                then openStream activeConversationId st4
                else setStatus Ready st4
            end
        | _ =>
            let st2 := issue (PostConversations text) st1 in
            match api_postConversations env text with
            | inl e => sendMessageFailed e st2
            | inr data =>
                match data with
                | Some {| conversation_id := Some (String c r);
                          message_start := start; started := began |} =>
                    let newConversationId := String c r in
                    let st3 := adoptConversation newConversationId st2 in
                    let '(userMessageId, st4) :=
                      match start with
                      | Some {| ms_user_message_id := Some u |} => (u, st3)
                      | _ => let '(n, st') := takeFresh st3 in
                             (generateUUID env n, st')
                      end in
                    let assistantMessageId :=
                      match start with
                      | Some ms => ms_assistant_message_id ms
                      | None => None
                      end in
                    let st5 :=
                      appendUserAndAssistant msgParts userMessageId
                        assistantMessageId st4 in
                    if began && isTruthyId assistantMessageId
                    then openStream newConversationId st5
                    else setStatus Ready st5
                | _ => sendMessageFailed (ThrownError noConversation) st2
                end
            end
        end
  | _ => toast (errorToast (JStr waitForReply)) st
  end.

Definition stop (st : ChatState) : ChatState :=
  let st1 := setStatus Ready (closeCurrent st) in
  match conversationIdRef st1 with
  | Some (String c r) => loadMessages (String c r) st1
  | _ => st1
  end.


(** ** Notions used to state the properties *)

(** The visible text of a turn: the text [updateLastAssistantPart] reads
    as [previousText] for the kind [text]. *)
Definition turnText (m : ChatMessage) : string :=
  previousTextOf TextPart (parts m).

(** A payload the dispatch treats as a streaming delta. *)
Definition isDeltaEvent (payload : JSValue) : bool :=
  match eventTypeOf payload with
  | Some eventType => inList eventType deltaEventTypes
  | None => false
  end.

(** The text a streaming payload adds: its extracted delta, nothing when
    there is none. *)
Definition deltaOf (payload : JSValue) : string :=
  match extractStreamText payload with
  | Some t => t
  | None => ""
  end.

(** The payloads of a stream, handled in arrival order. *)
Definition applyEvents (payloads : list JSValue) (st : ChatState) : ChatState :=
  fold_left (fun s payload => stateOf (handleStreamPayload payload s))
    payloads st.

(** A result without text: [null] or the empty string. *)
Definition blank (r : option string) : Prop := r = None \/ r = Some "".

(** [result] is what the loop over [candidates] returns: the text of the
    first candidate that has one, [None] when all are blank. *)
Definition isFirstText (candidates : list JSValue) (result : option string)
  : Prop :=
  match result with
  | None => Forall (fun c => blank (ensureString c)) candidates
  | Some t =>
      t <> "" /\
      exists before c after,
        candidates = before ++ c :: after /\
        Forall (fun c' => blank (ensureString c')) before /\
        ensureString c = Some t
  end.

(** The frames of a stream, each with its channel, handled in order. *)
Definition processFrames {W : Type} (opts : ConversationStreamOptions W)
  (frames : list (string * option string)) (w : W) : W * list Call :=
  fold_left (fun acc frame =>
               let '(w1, calls) := acc in
               let '(w2, more) := dispatchFrame opts (fst frame) (snd frame) w1 in
               (w2, calls ++ more))
    frames (w, []).

(** A frame is dropped when it has no data, empty data, or data that is
    not JSON. *)
Definition droppedFrame (data : option string) : Prop :=
  data = None \/ data = Some "" \/
  exists text, data = Some text /\ JSON_parse text = None.

(** Is the failure the one [loadMessages] takes for "not found"? *)
Definition isNotFound (e : Thrown) : bool :=
  match thrownMessage e with
  | Some text => testHttp404 text
  | None => false
  end.

(** ** Notions used to state further properties *)

(** The number of occurrences of a character. *)
Fixpoint countChar (c : ascii) (s : string) : nat :=
  match s with
  | EmptyString => 0
  | String x s' => (if Ascii.eqb c x then 1 else 0) + countChar c s'
  end.

(** A text without a quote, and a text of white space only. *)
Definition quoteFree (s : string) : Prop := includesChar squote s = false.

Definition allSpace (s : string) : Prop :=
  forall c, includesChar c s = true -> is_space c = true.

(** The result of [ensureString] on a string that is not parsed, or whose
    parsed value has no text. *)
Definition plainText (s : string) : option string :=
  match extractTextFromPythonLiteral s with
  | Some lit => Some lit
  | None => Some (normalizeEscapes s)
  end.

(** What identifies a turn apart from its parts. *)
Definition turnHeader (m : ChatMessage) : string * string * string :=
  (msg_id m, role m, createdAt m).

(** The number of parts of a kind a turn holds. *)
Definition countParts (partType : PartType) (msgParts : list JSValue) : nat :=
  length (List.filter (isPartOfType partType) msgParts).

(** A turn with at most one part of each kind. *)
Definition singleParts (m : ChatMessage) : Prop :=
  countParts TextPart (parts m) <= 1 /\
  countParts ReasoningPart (parts m) <= 1.

(** The two states agree on everything but the status, the transcript, the
    data stream and the notices. *)
Definition sameSession (st st' : ChatState) : Prop :=
  conversationId st' = conversationId st /\
  conversationIdRef st' = conversationIdRef st /\
  eventSourceRef st' = eventSourceRef st /\
  closedSources st' = closedSources st /\
  restCalls st' = restCalls st /\
  location st' = location st /\
  fresh st' = fresh st.

(** The message [handleStreamPayload] shows for a chain error. *)
Definition chainErrorMessage (payload : JSValue) : JSValue :=
  nullish
    (nullish (getProp (getProp payload "data") "message")
       (getProp (getProp payload "data") "error"))
    (JStr defaultChainError).

(** The event types [handleStreamPayload] acts on. *)
Definition handledEventTypes : list string :=
  deltaEventTypes ++ ["on_chat_model_end"; "on_chain_error"].

(** One action of the aggregator on the state, and a sequence of them. *)
Inductive aggregatorStep : ChatState -> ChatState -> Prop :=
  | step_log f st : aggregatorStep st (setDataStream f st)
  | step_update partType updater st :
      aggregatorStep st (updateLastAssistantPart partType updater st)
  | step_error notice st :
      aggregatorStep st (setStatus Ready (toast notice st)).

Inductive aggregated : ChatState -> ChatState -> Prop :=
  | agg_refl st : aggregated st st
  | agg_step st st' st'' :
      aggregated st st' -> aggregatorStep st' st'' -> aggregated st st''.

(** While streaming, a stream is open. *)
Definition streamingHasSource (st : ChatState) : Prop :=
  status st = Streaming -> eventSourceRef st <> None.

(** The stream the state holds, as a list. *)
Definition openSources (st : ChatState) : list EventSource :=
  match eventSourceRef st with
  | Some src => [src]
  | None => []
  end.

(** The parts of the placeholder of an assistant turn. *)
Definition placeholderParts : list JSValue :=
  [ JObj [("type", JStr "text"); ("text", JStr "")] ].

(** The REST call [sendMessage] issues for a content. *)
Definition sendCall (st : ChatState) (text : string) : RestCall :=
  match conversationIdRef st with
  | Some (String c r) => PostConversationsMessages (String c r) text
  | _ => PostConversations text
  end.

(** Does the backend throw [e] on that call? *)
Definition sendThrows (st : ChatState) (text : string) (e : Thrown) : Prop :=
  match conversationIdRef st with
  | Some (String c r) =>
      api_postConversationsMessages env (String c r) text = inl e
  | _ => api_postConversations env text = inl e
  end.

(** The text a history item shows. *)
Definition itemText (item : BackendMessage) : string :=
  match content item with
  | Some c => c
  | None => ""
  end.

(** A history item [mapBackendMessage] accepts: its events can be read and
    joined, and its creation time, when given, is a date. *)
Definition itemMaps (item : BackendMessage) : Prop :=
  (exists reasoning, reasoningOf item = inr reasoning) /\
  (forall c r, created_at item = Some (String c r) ->
               exists stamp, toISOString env (String c r) = Some stamp).

(** The state once [sendMessage] has accepted a content and issued its
    call. *)
Definition accepted (st : ChatState) (text : string) : ChatState :=
  issue (sendCall st text)
    (setDataStream (fun _ => []) (setStatus Submitted st)).

(** The two states differ at most in the conversation id, the address and
    the supply of identifiers. *)
Definition prepared (st st' : ChatState) : Prop :=
  status st' = status st /\
  messages st' = messages st /\
  eventSourceRef st' = eventSourceRef st /\
  dataStream st' = dataStream st /\
  toasts st' = toasts st /\
  closedSources st' = closedSources st /\
  restCalls st' = restCalls st.

(** The placeholder of an assistant turn, when the backend gave its id. *)
Definition placeholderFor (assistantMessageId : option string)
  : list ChatMessage :=
  match assistantMessageId with
  | Some (String c r) =>
      [mkChatMessage (String c r) "assistant" placeholderParts (now env)]
  | _ => []
  end.

(** The two states differ at most in the supply of identifiers. *)
Definition onlyFresh (st st' : ChatState) : Prop :=
  status st' = status st /\
  messages st' = messages st /\
  transcriptRenders st' = transcriptRenders st /\
  eventSourceRef st' = eventSourceRef st /\
  dataStream st' = dataStream st /\
  toasts st' = toasts st /\
  closedSources st' = closedSources st /\
  restCalls st' = restCalls st /\
  conversationIdRef st' = conversationIdRef st.

(** The role a history item is shown with. *)
Definition itemRole (item : BackendMessage) : string :=
  match bm_role item with
  | Some r => r
  | None => "assistant"
  end.

(** The REST call [stop] issues. *)
Definition refetchCalls (st : ChatState) : list RestCall :=
  match conversationIdRef st with
  | Some (String c r) => [GetConversationsMessages (String c r)]
  | _ => []
  end.


(** * Properties *)

(** ** The normalizer terminates *)

Lemma trimStart_length s : String.length (trimStart s) <= String.length s.
Proof.
  induction s as [|c s IH]; simpl; [lia|].
  destruct (is_space c); simpl; lia.
Qed.

Lemma trimEnd_length s : String.length (trimEnd s) <= String.length s.
Proof.
  induction s as [|c s IH]; simpl; [lia|].
  destruct (trimEnd s) as [|d r]; [destruct (is_space c)|]; simpl in *; lia.
Qed.

Lemma trim_length s : String.length (trim s) <= String.length s.
Proof.
  unfold trim. pose proof (trimEnd_length (trimStart s)).
  pose proof (trimStart_length s). lia.
Qed.

Lemma lookupField_size k fields :
  jsize (lookupField k fields)
  <= list_sum (map (fun kv : string * JSValue => let '(_, x) := kv in jsize x) fields).
Proof.
  induction fields as [|[k' v] rest IH]; simpl; [lia|].
  destruct (String.eqb k k'); lia.
Qed.

Lemma getProp_size v k : jsize (getProp v k) <= pred (jsize v).
Proof.
  destruct v; simpl; try lia. apply lookupField_size.
Qed.

Lemma ensureString_fuel_unfold fuel value :
  ensureString_fuel (S fuel) value =
  match value with
  | JStr s =>
      let trimmed := trim s in
      let plain :=
        match extractTextFromPythonLiteral s with
        | Some lit => Some lit
        | None => Some (normalizeEscapes s)
        end in
      if looksLikeJson trimmed then
        match JSON_parse trimmed with
        | Some parsed =>
            match ensureString_fuel fuel parsed with
            | None => None
            | Some (Some (String c r)) => Some (Some (String c r))
            | Some _ => Some plain
            end
        | None => Some plain
        end
      else Some plain
  | JArr items =>
      let joined := concatStrings (map partText items) in
      Some (if (0 <? String.length joined)%nat then Some joined else None)
  | JObj fields =>
      match getProp value "text" with
      | JStr t => Some (Some t)
      | _ =>
          let content := getProp value "content" in
          if isArray content then ensureString_fuel fuel content
          else if isString content then ensureString_fuel fuel content
          else
            let delta := getProp value "delta" in
            if isArray delta then ensureString_fuel fuel delta
            else
              match getProp value "choices" with
              | JArr (choice :: _) =>
                  if truthy (getProp choice "delta")
                  then ensureString_fuel fuel (getProp choice "delta")
                  else if truthy (getProp choice "message")
                  then ensureString_fuel fuel (getProp choice "message")
                  else Some None
              | _ => Some None
              end
      end
  | _ => Some None
  end.
Proof. reflexivity. Qed.

(** More fuel does not change a result. *)
Lemma ensureString_fuel_mono n :
  forall m value r,
    n <= m -> ensureString_fuel n value = Some r ->
    ensureString_fuel m value = Some r.
Proof.
  induction n as [|n IH]; intros m value r Hle H; [discriminate|].
  destruct m as [|m]; [lia|].
  assert (Hnm : n <= m) by lia.
  rewrite ensureString_fuel_unfold in *.
  destruct value as [| | | |s|items|fields]; try assumption.
  - cbv zeta in *. destruct (looksLikeJson (trim s)); [|assumption].
    destruct (JSON_parse (trim s)) as [parsed|]; [|assumption].
    destruct (ensureString_fuel n parsed) as [inner|] eqn:E; [|discriminate].
    rewrite (IH m parsed inner Hnm E). assumption.
  - cbv zeta in *.
    destruct (getProp (JObj fields) "text"); try assumption;
      repeat match type of H with
             | (if ?b then _ else _) = _ => destruct b
             | match ?v with _ => _ end = _ => destruct v
             | ensureString_fuel n _ = _ => apply (IH m _ _ Hnm) in H
             end; try assumption.
Qed.

Lemma choices_size value choice rest k :
  getProp value "choices" = JArr (choice :: rest) ->
  jsize (getProp choice k) < pred (jsize value).
Proof.
  intros H. pose proof (getProp_size value "choices") as Hs.
  rewrite H in Hs. simpl in Hs.
  pose proof (getProp_size choice k). lia.
Qed.

(** Fuel above the size of the value is enough. *)
Lemma ensureString_fuel_enough n :
  forall value, jsize value < n -> is_Some (ensureString_fuel n value).
Proof using JSON_parse_size.
  induction n as [|n IH]; intros value Hn; [lia|].
  rewrite ensureString_fuel_unfold.
  destruct value as [| | | |s|items|fields]; try (eexists; reflexivity).
  - cbv zeta. destruct (looksLikeJson (trim s)); [|eexists; reflexivity].
    destruct (JSON_parse (trim s)) as [parsed|] eqn:Hp; [|eexists; reflexivity].
    apply JSON_parse_size in Hp. pose proof (trim_length s) as Ht.
    simpl in Hn.
    destruct (IH parsed ltac:(lia)) as [inner ->].
    destruct inner as [[|c r]|]; eexists; reflexivity.
  - cbv zeta.
    pose proof (getProp_size (JObj fields) "content") as Hc.
    pose proof (getProp_size (JObj fields) "delta") as Hd.
    assert (Hpos : 0 < jsize (JObj fields)) by (simpl; lia).
    destruct (getProp (JObj fields) "text"); try (eexists; reflexivity);
      (destruct (isArray (getProp (JObj fields) "content"));
       [apply IH; lia|];
       destruct (isString (getProp (JObj fields) "content"));
       [apply IH; lia|];
       destruct (isArray (getProp (JObj fields) "delta"));
       [apply IH; lia|];
       destruct (getProp (JObj fields) "choices") as [| | | | |[|choice rest]|] eqn:Hch;
       try (eexists; reflexivity);
       pose proof (choices_size _ _ _ "delta" Hch);
       pose proof (choices_size _ _ _ "message" Hch);
       destruct (truthy (getProp choice "delta")); [apply IH; lia|];
       destruct (truthy (getProp choice "message")); [apply IH; lia|];
       eexists; reflexivity).
Qed.

(** With enough fuel the result is the one [ensureString] gives. *)
Lemma ensureString_fuel_spec n value :
  jsize value < n -> ensureString_fuel n value = Some (ensureString value).
Proof using JSON_parse_size.
  intros Hn. unfold ensureString.
  destruct (ensureString_fuel_enough (S (jsize value)) value ltac:(lia))
    as [r Hr].
  rewrite Hr. apply (ensureString_fuel_mono (S (jsize value)) n); [lia|exact Hr].
Qed.


(** C3 (amended). [ensureString] terminates on every value: any fuel above
    the size of the value gives one and the same result, a string or
    [null].  The string can be empty; for an array argument it never is,
    and a string argument always gives a string. *)
Theorem ensureString_terminates value :
  exists r : option string,
    (forall fuel, jsize value < fuel ->
                  ensureString_fuel fuel value = Some r) /\
    ensureString value = r /\
    (isArray value = true -> r <> Some "") /\
    (isString value = true -> r <> None).
Proof using JSON_parse_size.
  exists (ensureString value). split; [|split; [|split]].
  - intros fuel Hf. apply ensureString_fuel_spec, Hf.
  - reflexivity.
  - destruct value; try discriminate. intros _.
    unfold ensureString. rewrite ensureString_fuel_unfold. cbv zeta.
    destruct (0 <? String.length (concatStrings (map partText items)))%nat eqn:E;
      [|discriminate].
    intros [= Heq]. rewrite Heq in E. discriminate.
  - destruct value as [| | | |s| |]; try discriminate. intros _.
    pose proof (ensureString_fuel_spec (S (jsize (JStr s))) (JStr s)
                  ltac:(lia)) as H.
    rewrite ensureString_fuel_unfold in H. cbv zeta in H.
    destruct (extractTextFromPythonLiteral s);
      destruct (looksLikeJson (trim s));
      try destruct (JSON_parse (trim s));
      try destruct (ensureString_fuel (jsize (JStr s)) _) as [[[|c r]|]|];
      congruence.
Qed.

(** ** The extractors *)

Lemma firstText_spec candidates : isFirstText candidates (firstText candidates).
Proof.
  induction candidates as [|c rest IH]; simpl.
  - constructor.
  - destruct (ensureString c) as [[|ch r]|] eqn:E.
    + unfold isFirstText in *. destruct (firstText rest) as [t|].
      * destruct IH as (Hne & before & c' & after & -> & Hb & Hc).
        split; [assumption|]. exists (c :: before), c', after.
        repeat split; try assumption. constructor; [right|]; assumption.
      * constructor; [right|]; assumption.
    + split; [discriminate|]. exists [], c, rest.
      repeat split; [constructor | assumption].
    + unfold isFirstText in *. destruct (firstText rest) as [t|].
      * destruct IH as (Hne & before & c' & after & -> & Hb & Hc).
        split; [assumption|]. exists (c :: before), c', after.
        repeat split; try assumption. constructor; [left|]; assumption.
      * constructor; [left|]; assumption.
Qed.

Lemma firstText_nonempty candidates : firstText candidates <> Some "".
Proof.
  pose proof (firstText_spec candidates) as H. unfold isFirstText in H.
  destruct (firstText candidates) as [t|]; [|discriminate].
  destruct H as [Hne _]. congruence.
Qed.

(** C10. On every payload, [null] and [undefined] included, the two
    extractors terminate (each normalization they run has enough fuel) and
    return [null] or a non-empty string: the text of the first candidate of
    their list that normalizes to a non-empty string.  A falsy payload
    gives [null]. *)
Theorem extractors_first_nonempty payload :
  (forall c fuel,
      In c (streamCandidates payload ++ finalCandidates payload) ->
      jsize c < fuel -> ensureString_fuel fuel c = Some (ensureString c)) /\
  extractStreamText payload <> Some "" /\
  extractFinalText payload <> Some "" /\
  (if truthy payload
   then isFirstText (streamCandidates payload) (extractStreamText payload) /\
        isFirstText (finalCandidates payload) (extractFinalText payload)
   else extractStreamText payload = None /\ extractFinalText payload = None).
Proof using JSON_parse_size.
  unfold extractStreamText, extractFinalText. repeat split.
  - intros c fuel _ Hf. apply ensureString_fuel_spec, Hf.
  - destruct (truthy payload); [apply firstText_nonempty | discriminate].
  - destruct (truthy payload); [apply firstText_nonempty | discriminate].
  - destruct (truthy payload); [|split; reflexivity].
    split; apply firstText_spec.
Qed.


(** ** The event stream adapter *)

Lemma inList_In x l : inList x l = true <-> In x l.
Proof.
  unfold inList. rewrite existsb_exists. split.
  - intros (y & Hy & E). apply String.eqb_eq in E. subst. assumption.
  - intros H. exists x. split; [assumption | apply String.eqb_refl].
Qed.

Lemma isGraphEnd_spec {W} (opts : ConversationStreamOptions W) payload :
  isGraphEnd opts payload = true <->
  getProp payload "event" = JStr "on_chain_end" /\
  exists n, getProp payload "name" = JStr n /\ In n (final opts).
Proof.
  unfold isGraphEnd. split.
  - destruct (getProp payload "event") as [| | | |e| |]; try discriminate.
    intros H. apply andb_prop in H as [He Hn].
    apply String.eqb_eq in He. subst e. split; [reflexivity|].
    destruct (getProp payload "name") as [| | | |n| |]; try discriminate.
    exists n. split; [reflexivity | apply inList_In, Hn].
  - intros (-> & n & -> & Hin). rewrite String.eqb_refl. simpl.
    apply inList_In, Hin.
Qed.

Lemma forward_dropped {W} (opts : ConversationStreamOptions W) name data w :
  droppedFrame data -> forward opts name data w = (w, []).
Proof.
  unfold forward. intros [-> | [-> | (text & -> & Hp)]]; try reflexivity.
  rewrite Hp. destruct text; reflexivity.
Qed.

Lemma dispatchTo_dropped {W} (opts : ConversationStreamOptions W)
  listeners channel data w :
  droppedFrame data -> dispatchTo opts listeners channel data w = (w, []).
Proof.
  intros Hd. induction listeners as [|n rest IH]; simpl; [reflexivity|].
  destruct (String.eqb n channel); [|assumption].
  rewrite (forward_dropped opts n data w Hd), IH. reflexivity.
Qed.

(** C8. A frame whose data is absent, empty or not JSON makes the listener
    invoke no callback and leave the world as it was (nothing is thrown:
    [forward] is a total function); the frames after it are processed as
    if it had not arrived. *)
Theorem dropped_frame_is_ignored {W} (opts : ConversationStreamOptions W) data :
  droppedFrame data ->
  (forall name w, forward opts name data w = (w, [])) /\
  (forall channel before after w,
      processFrames opts (before ++ (channel, data) :: after) w
      = processFrames opts (before ++ after) w).
Proof.
  intros Hd. split.
  - intros name w. apply forward_dropped, Hd.
  - intros channel before after w. unfold processFrames.
    rewrite !fold_left_app. simpl.
    destruct (fold_left _ before (w, [])) as [w1 calls].
    unfold dispatchFrame. simpl.
    rewrite (dispatchTo_dropped opts _ channel data w1 Hd).
    rewrite app_nil_r. reflexivity.
Qed.

(** C2 (amended). For a frame that parses, with a completion callback
    configured: the completion callback is invoked only if the payload's
    [event] is ["on_chain_end"] and its [name] is in the final-agent set;
    it is invoked in that case when the event callback has returned
    without throwing (the [try] of [forward] covers the event callback
    too); and an [on_chain_end] payload of a name outside the set never
    invokes it. *)
Theorem completion_iff_graph_end {W} (opts : ConversationStreamOptions W)
  name text payload complete w :
  text <> "" ->
  JSON_parse text = Some payload ->
  onComplete opts = Some complete ->
  (In CallComplete (snd (forward opts name (Some text) w)) ->
   getProp payload "event" = JStr "on_chain_end" /\
   exists n, getProp payload "name" = JStr n /\ In n (final opts)) /\
  ((forall f, onEvent opts = Some f ->
              exists w1, f payload name w = Normal w1) ->
   getProp payload "event" = JStr "on_chain_end" /\
   (exists n, getProp payload "name" = JStr n /\ In n (final opts)) ->
   In CallComplete (snd (forward opts name (Some text) w))) /\
  (forall n, getProp payload "name" = JStr n -> ~ In n (final opts) ->
             ~ In CallComplete (snd (forward opts name (Some text) w))).
Proof.
  intros Hne Hp Hc.
  assert (Honly : In CallComplete (snd (forward opts name (Some text) w)) ->
                  isGraphEnd opts payload = true).
  { unfold forward. destruct text as [|c r]; [congruence|].
    rewrite Hp, Hc.
    destruct (onEvent opts) as [f|]; [destruct (f payload name w)|];
      destruct (isGraphEnd opts payload); simpl; intros H;
      try reflexivity; repeat destruct H as [H|H]; try discriminate;
      try contradiction. }
  split; [|split].
  - intros H. apply isGraphEnd_spec, Honly, H.
  - intros Hev Hend. apply isGraphEnd_spec in Hend.
    unfold forward. destruct text as [|c r]; [congruence|].
    rewrite Hp, Hc, Hend.
    destruct (onEvent opts) as [f|].
    + destruct (Hev f eq_refl) as [w1 ->]. simpl. right. left. reflexivity.
    + simpl. left. reflexivity.
  - intros n Hn Hnot Hin. apply Honly, isGraphEnd_spec in Hin.
    destruct Hin as (_ & n' & Hn' & Hin). congruence.
Qed.

(** ** The transcript aggregator *)

Lemma string_app_nil_r (s : string) : (s ++ "")%string = s.
Proof.
  induction s as [|c s IH]; [reflexivity|].
  change (String c (s ++ "")%string = String c s). rewrite IH. reflexivity.
Qed.

Lemma string_app_assoc (a b c : string) :
  ((a ++ b) ++ c)%string = (a ++ (b ++ c))%string.
Proof.
  induction a as [|x a IH]; [reflexivity|].
  change (String x ((a ++ b) ++ c)%string = String x (a ++ (b ++ c))%string).
  rewrite IH. reflexivity.
Qed.

Lemma lookupField_setField_same k v fields :
  lookupField k (setField k v fields) = v.
Proof.
  induction fields as [|[k' v'] rest IH]; simpl.
  - rewrite String.eqb_refl. reflexivity.
  - destruct (String.eqb k k') eqn:E; simpl.
    + rewrite String.eqb_refl. reflexivity.
    + rewrite E. assumption.
Qed.

Lemma lookupField_setField_other k k' v fields :
  k <> k' -> lookupField k (setField k' v fields) = lookupField k fields.
Proof.
  intros Hne. apply String.eqb_neq in Hne.
  induction fields as [|[k0 v0] rest IH]; simpl.
  - rewrite Hne. reflexivity.
  - destruct (String.eqb k' k0) eqn:E; simpl.
    + apply String.eqb_eq in E. subst k0. rewrite Hne. reflexivity.
    + destruct (String.eqb k k0); [reflexivity | assumption].
Qed.

Lemma rebuiltPart_type partType old nextText :
  getProp (rebuiltPart partType old nextText) "type"
  = JStr (partTypeName partType).
Proof.
  unfold rebuiltPart. simpl.
  rewrite lookupField_setField_other by discriminate.
  apply lookupField_setField_same.
Qed.

Lemma rebuiltPart_text partType old nextText :
  getProp (rebuiltPart partType old nextText) "text" = JStr nextText.
Proof. unfold rebuiltPart. simpl. apply lookupField_setField_same. Qed.

Lemma isPartOfType_rebuilt partType partType' old nextText :
  isPartOfType partType' (rebuiltPart partType old nextText)
  = String.eqb (partTypeName partType) (partTypeName partType').
Proof. unfold isPartOfType. rewrite rebuiltPart_type. reflexivity. Qed.

Lemma isPartOfType_exclusive partType partType' part :
  partType <> partType' ->
  isPartOfType partType part = true -> isPartOfType partType' part = false.
Proof.
  unfold isPartOfType. intros Hne.
  destruct (getProp part "type") as [| | | |t| |]; try discriminate.
  intros H. apply String.eqb_eq in H. subst t.
  destruct partType, partType'; try reflexivity; congruence.
Qed.

Lemma previousTextOf_cons partType part rest :
  previousTextOf partType (part :: rest)
  = if isPartOfType partType part
    then match getProp part "text" with JStr t => t | _ => "" end
    else previousTextOf partType rest.
Proof.
  unfold previousTextOf. simpl.
  destruct (isPartOfType partType part); [reflexivity|].
  destruct (findIndex (isPartOfType partType) rest); reflexivity.
Qed.

Lemma nextPartsOf_cons partType part rest nextText :
  nextPartsOf partType (part :: rest) nextText
  = if isPartOfType partType part
    then rebuiltPart partType (Some part) nextText :: rest
    else part :: nextPartsOf partType rest nextText.
Proof.
  unfold nextPartsOf. simpl.
  destruct (isPartOfType partType part); [reflexivity|].
  destruct (findIndex (isPartOfType partType) rest); reflexivity.
Qed.

(** After the update the part of the given kind holds the new text. *)
Lemma previousTextOf_nextPartsOf partType msgParts nextText :
  previousTextOf partType (nextPartsOf partType msgParts nextText) = nextText.
Proof.
  induction msgParts as [|part rest IH].
  - unfold nextPartsOf, previousTextOf. simpl. unfold isPartOfType. simpl.
    rewrite String.eqb_refl. reflexivity.
  - rewrite nextPartsOf_cons.
    destruct (isPartOfType partType part) eqn:E; rewrite previousTextOf_cons.
    + rewrite isPartOfType_rebuilt, String.eqb_refl, rebuiltPart_text.
      reflexivity.
    + rewrite E. assumption.
Qed.

(** The update leaves the text of the other kind of part as it was. *)
Lemma previousTextOf_nextPartsOf_other partType partType' msgParts nextText :
  partType <> partType' ->
  previousTextOf partType' (nextPartsOf partType msgParts nextText)
  = previousTextOf partType' msgParts.
Proof.
  intros Hne.
  assert (Hnames : String.eqb (partTypeName partType) (partTypeName partType')
                   = false)
    by (destruct partType, partType'; try reflexivity; congruence).
  induction msgParts as [|part rest IH].
  - unfold nextPartsOf, previousTextOf. simpl. unfold isPartOfType. simpl.
    rewrite Hnames. reflexivity.
  - rewrite nextPartsOf_cons.
    destruct (isPartOfType partType part) eqn:E; rewrite !previousTextOf_cons.
    + rewrite isPartOfType_rebuilt, Hnames.
      rewrite (isPartOfType_exclusive partType partType' part Hne E).
      reflexivity.
    + rewrite IH. reflexivity.
Qed.

Lemma last_turn_lookup (init : list ChatMessage) m :
  (init ++ [m]) !! (length (init ++ [m]) - 1) = Some m.
Proof.
  apply list_lookup_middle. rewrite length_app. simpl. lia.
Qed.

Lemma last_turn_insert (init : list ChatMessage) m m' :
  <[length (init ++ [m]) - 1 := m']> (init ++ [m]) = init ++ [m'].
Proof.
  rewrite insert_app_r_alt by (rewrite length_app; simpl; lia).
  rewrite length_app. simpl.
  replace (length init + 1 - 1 - length init) with 0 by lia. reflexivity.
Qed.

Lemma snoc_length_nonzero (init : list ChatMessage) m :
  (length (init ++ [m]) =? 0)%nat = false.
Proof. rewrite length_app. simpl. apply Nat.eqb_neq. lia. Qed.

(** The updater on a transcript that ends with an assistant turn. *)
Lemma lastAssistantPartUpdater_assistant partType updater init m :
  role m = "assistant" ->
  lastAssistantPartUpdater partType updater (init ++ [m])
  = match updater (previousTextOf partType (parts m)) with
    | None => Same
    | Some nextText =>
        if String.eqb nextText (previousTextOf partType (parts m)) then Same
        else Changed
               (init ++ [withParts m (nextPartsOf partType (parts m) nextText)])
    end.
Proof.
  intros Hrole. unfold lastAssistantPartUpdater.
  rewrite snoc_length_nonzero, last_turn_lookup, Hrole. simpl.
  destruct (updater (previousTextOf partType (parts m))) as [nextText|];
    [|reflexivity].
  destruct (String.eqb nextText (previousTextOf partType (parts m)));
    [reflexivity|].
  rewrite last_turn_insert. reflexivity.
Qed.

(** The updater on a transcript that does not end with an assistant turn. *)
Lemma lastAssistantPartUpdater_other partType updater init m :
  role m <> "assistant" ->
  lastAssistantPartUpdater partType updater (init ++ [m]) = Same.
Proof.
  intros Hrole. unfold lastAssistantPartUpdater.
  rewrite snoc_length_nonzero, last_turn_lookup.
  apply String.eqb_neq in Hrole. rewrite Hrole. reflexivity.
Qed.

Lemma snoc_cases {A} (l : list A) : l = [] \/ exists init x, l = init ++ [x].
Proof.
  destruct l as [|x l] using rev_ind; [left; reflexivity|].
  right. exists l, x. reflexivity.
Qed.

(** C5. An update of the aggregator either returns the transcript it was
    given or replaces the last turn only; on an empty transcript and on one
    whose last turn is not an assistant turn it changes nothing at all. *)
Theorem update_touches_last_turn_only partType updater st :
  (updateLastAssistantPart partType updater st = st \/
   exists init m nextParts,
     messages st = init ++ [m] /\ role m = "assistant" /\
     messages (updateLastAssistantPart partType updater st)
     = init ++ [withParts m nextParts]) /\
  (messages st = [] ->
   updateLastAssistantPart partType updater st = st) /\
  (forall init m, messages st = init ++ [m] -> role m <> "assistant" ->
                  updateLastAssistantPart partType updater st = st).
Proof.
  unfold updateLastAssistantPart, setMessages. split; [|split].
  - destruct (snoc_cases (messages st)) as [E | (init & m & E)]; rewrite E.
    + left. reflexivity.
    + destruct (String.eqb_spec (role m) "assistant") as [Hr|Hr].
      * rewrite (lastAssistantPartUpdater_assistant _ _ _ _ Hr).
        destruct (updater (previousTextOf partType (parts m))) as [nextText|];
          [|left; reflexivity].
        destruct (String.eqb nextText (previousTextOf partType (parts m)));
          [left; reflexivity|].
        right. exists init, m, (nextPartsOf partType (parts m) nextText).
        repeat split; assumption.
      * rewrite (lastAssistantPartUpdater_other _ _ _ _ Hr). left. reflexivity.
  - intros ->. reflexivity.
  - intros init m -> Hr.
    rewrite (lastAssistantPartUpdater_other _ _ _ _ Hr). reflexivity.
Qed.


(** An update whose updater returns [f previous], on a transcript that
    ends with an assistant turn. *)
Lemma update_last_assistant partType f st init m :
  messages st = init ++ [m] ->
  role m = "assistant" ->
  exists m',
    messages (updateLastAssistantPart partType (fun p => Some (f p)) st)
    = init ++ [m'] /\
    role m' = "assistant" /\
    previousTextOf partType (parts m') = f (previousTextOf partType (parts m)) /\
    forall partType', partType <> partType' ->
      previousTextOf partType' (parts m') = previousTextOf partType' (parts m).
Proof.
  intros Hm Hr. unfold updateLastAssistantPart, setMessages.
  rewrite Hm, (lastAssistantPartUpdater_assistant _ _ _ _ Hr).
  destruct (String.eqb_spec (f (previousTextOf partType (parts m)))
              (previousTextOf partType (parts m))) as [E|E].
  - exists m. rewrite E. repeat split; auto.
  - exists (withParts m (nextPartsOf partType (parts m)
                           (f (previousTextOf partType (parts m))))).
    simpl. repeat split; auto.
    + apply previousTextOf_nextPartsOf.
    + intros partType' Hne. apply previousTextOf_nextPartsOf_other, Hne.
Qed.

Lemma eventTypeOf_truthy payload eventType :
  eventTypeOf payload = Some eventType -> eventType <> "" ->
  truthy payload = true.
Proof.
  destruct payload; try reflexivity; cbv; congruence.
Qed.

Lemma isDeltaEvent_truthy payload :
  isDeltaEvent payload = true -> truthy payload = true.
Proof.
  unfold isDeltaEvent. destruct (eventTypeOf payload) as [eventType|] eqn:E;
    [|discriminate].
  intros H. apply (eventTypeOf_truthy _ _ E). intros ->. discriminate.
Qed.

(** What [handleStreamPayload] does with a streaming delta. *)
Lemma handleStreamPayload_delta payload st :
  isDeltaEvent payload = true ->
  handleStreamPayload payload st
  = Normal
      (let st1 := setDataStream (fun prev => prev ++ [payload]) st in
       let st2 :=
         match extractStreamText payload with
         | Some (String c r) => appendTextDelta (String c r) st1
         | _ => st1
         end in
       match reasoningDeltaOf payload with
       | JStr (String c r) => appendReasoningDelta (String c r) st2
       | _ => st2
       end).
Proof.
  intros Hd. pose proof (isDeltaEvent_truthy _ Hd) as Ht.
  unfold handleStreamPayload, isDeltaEvent in *. rewrite Ht. simpl negb.
  destruct (eventTypeOf payload) as [eventType|]; [|discriminate].
  cbv iota. rewrite Hd. cbv zeta. unfold appendChunk.
  destruct (extractStreamText payload) as [[|c r]|];
    destruct (reasoningDeltaOf payload) as [| | | |[|c' r']| |]; reflexivity.
Qed.

(** What [handleStreamPayload] does with the end of the model's answer. *)
Lemma handleStreamPayload_end payload st :
  eventTypeOf payload = Some "on_chat_model_end" ->
  handleStreamPayload payload st
  = Normal
      (let st1 := setDataStream (fun prev => prev ++ [payload]) st in
       let st2 :=
         match extractFinalText payload with
         | Some (String c r) => replaceFinalText (String c r) st1
         | _ => st1
         end in
       match finalReasoningOf payload with
       | JStr (String c r) => replaceFinalReasoning (String c r) st2
       | _ => st2
       end).
Proof.
  intros He.
  pose proof (eventTypeOf_truthy _ _ He ltac:(discriminate)) as Ht.
  unfold handleStreamPayload. rewrite Ht, He. simpl negb. cbv iota.
  change (inList "on_chat_model_end" deltaEventTypes) with false.
  change ("on_chat_model_end" =? "on_chat_model_end")%string with true.
  cbv iota zeta.
  destruct (finalReasoningOf payload) as [| | | |[|c' r']| |]; reflexivity.
Qed.

(** One streaming delta appends its text to the last assistant turn. *)
Lemma handle_delta_appends payload st init m :
  isDeltaEvent payload = true ->
  messages st = init ++ [m] ->
  role m = "assistant" ->
  exists m',
    messages (stateOf (handleStreamPayload payload st)) = init ++ [m'] /\
    role m' = "assistant" /\
    turnText m' = (turnText m ++ deltaOf payload)%string.
Proof.
  intros Hd Hm Hr. rewrite (handleStreamPayload_delta _ _ Hd). simpl stateOf.
  cbv zeta. set (st1 := setDataStream _ st).
  assert (Hm1 : messages st1 = init ++ [m]) by exact Hm.
  assert (Htext : exists m1,
             messages (match extractStreamText payload with
                       | Some (String c r) => appendTextDelta (String c r) st1
                       | _ => st1
                       end) = init ++ [m1] /\
             role m1 = "assistant" /\
             turnText m1 = (turnText m ++ deltaOf payload)%string).
  { unfold deltaOf. destruct (extractStreamText payload) as [[|c r]|].
    - exists m. rewrite string_app_nil_r. auto.
    - destruct (update_last_assistant TextPart
                  (fun p => (p ++ String c r)%string) st1 init m Hm1 Hr)
        as (m1 & H1 & H2 & H3 & _).
      exists m1. auto.
    - exists m. rewrite string_app_nil_r. auto. }
  destruct Htext as (m1 & Hm2 & Hr1 & Ht1).
  destruct (reasoningDeltaOf payload) as [| | | |[|c r]| |];
    try solve [exists m1; repeat split; assumption].
  destruct (update_last_assistant ReasoningPart
              (fun p => (p ++ String c r)%string) _ init m1 Hm2 Hr1)
    as (m2 & H1 & H2 & _ & H4).
  exists m2. repeat split; auto.
  unfold turnText. rewrite H4 by discriminate. exact Ht1.
Qed.

Lemma concatStrings_cons x l :
  concatStrings (x :: l) = (x ++ concatStrings l)%string.
Proof. reflexivity. Qed.

(** C1. While the last turn is an assistant turn, a sequence of streaming
    deltas leaves as its text the initial text followed by the extracted
    deltas in arrival order; an [on_chat_model_end] payload with a final
    text then sets the text to exactly that final text. *)
Theorem deltas_concatenate_then_final_replaces payloads st init m :
  messages st = init ++ [m] ->
  role m = "assistant" ->
  forallb isDeltaEvent payloads = true ->
  exists m',
    messages (applyEvents payloads st) = init ++ [m'] /\
    role m' = "assistant" /\
    turnText m' = (turnText m ++ concatStrings (map deltaOf payloads))%string /\
    forall final text,
      eventTypeOf final = Some "on_chat_model_end" ->
      extractFinalText final = Some text ->
      exists m'',
        messages (stateOf (handleStreamPayload final (applyEvents payloads st)))
        = init ++ [m''] /\
        role m'' = "assistant" /\
        turnText m'' = text.
Proof.
  revert st m. induction payloads as [|payload rest IH]; intros st m Hm Hr Hall.
  - exists m. simpl. rewrite string_app_nil_r. repeat split; auto.
    intros final text He Hf. rewrite (handleStreamPayload_end _ _ He).
    simpl stateOf. cbv zeta. set (st1 := setDataStream _ st).
    assert (Hm1 : messages st1 = init ++ [m]) by exact Hm.
    rewrite Hf.
    assert (Hne : text <> "") by (intros ->; eapply firstText_nonempty;
      unfold extractFinalText in Hf; destruct (truthy final);
      [exact Hf | discriminate]).
    destruct text as [|c r]; [congruence|].
    destruct (update_last_assistant TextPart (fun _ => String c r)
                st1 init m Hm1 Hr) as (m1 & H1 & H2 & H3 & _).
    destruct (finalReasoningOf final) as [| | | |[|c' r']| |];
      try solve [exists m1; repeat split; assumption].
    destruct (update_last_assistant ReasoningPart (fun _ => String c' r')
                _ init m1 H1 H2) as (m2 & H5 & H6 & _ & H8).
    exists m2. repeat split; auto.
    unfold turnText. rewrite H8 by discriminate. exact H3.
  - simpl in Hall. apply andb_prop in Hall as [Hd Hall].
    destruct (handle_delta_appends payload st init m Hd Hm Hr)
      as (m1 & Hm1 & Hr1 & Ht1).
    destruct (IH _ m1 Hm1 Hr1 Hall) as (m' & H1 & H2 & H3 & H4).
    exists m'. repeat split; auto.
    change (map deltaOf (payload :: rest))
      with (deltaOf payload :: map deltaOf rest).
    rewrite concatStrings_cons, <- string_app_assoc, <- Ht1. exact H3.
Qed.

(** C4 (amended). A streaming delta without text and without a reasoning
    delta hands the transcript back as it was, and no render of the
    transcript follows: the payload is only added to the data stream.
    Appending an empty or absent chunk changes nothing. *)
Theorem textless_delta_keeps_transcript payload st :
  isDeltaEvent payload = true ->
  blank (extractStreamText payload) ->
  (forall c r, reasoningDeltaOf payload <> JStr (String c r)) ->
  stateOf (handleStreamPayload payload st)
  = setDataStream (fun prev => prev ++ [payload]) st /\
  messages (stateOf (handleStreamPayload payload st)) = messages st /\
  transcriptRenders (stateOf (handleStreamPayload payload st))
  = transcriptRenders st /\
  appendChunk (Some "") st = st /\
  appendChunk None st = st.
Proof.
  intros Hd Hb Hr. rewrite (handleStreamPayload_delta _ _ Hd). simpl stateOf.
  cbv zeta.
  assert (E : match extractStreamText payload with
              | Some (String c r) =>
                  appendTextDelta (String c r)
                    (setDataStream (fun prev => prev ++ [payload]) st)
              | _ => setDataStream (fun prev => prev ++ [payload]) st
              end = setDataStream (fun prev => prev ++ [payload]) st).
  { destruct Hb as [-> | ->]; reflexivity. }
  rewrite E.
  destruct (reasoningDeltaOf payload) as [| | | |[|c r]| |];
    try (repeat split; reflexivity).
  exfalso. apply (Hr c r). reflexivity.
Qed.


(** ** The session controller *)

(** The event callback of the component returns when the payload's [event]
    is a string: with [chatStreamOptions] a graph end always reaches the
    completion callback. *)
Lemma handleStreamPayload_returns payload e st :
  getProp payload "event" = JStr e ->
  exists st', handleStreamPayload payload st = Normal st'.
Proof.
  intros He. unfold handleStreamPayload.
  destruct (negb (truthy payload)); [eexists; reflexivity|].
  unfold eventTypeOf. rewrite He. simpl.
  repeat match goal with
         | |- context [if ?b then _ else _] => destruct b
         | |- context [match ?x with _ => _ end] => destruct x
         end; eexists; reflexivity.
Qed.

(** With the callbacks of the component the event callback returns on
    every graph end: completion is invoked exactly on a graph end. *)
Lemma chat_completion_iff_graph_end name text payload st :
  text <> "" ->
  JSON_parse text = Some payload ->
  In CallComplete (snd (forward chatStreamOptions name (Some text) st)) <->
  isGraphEnd chatStreamOptions payload = true.
Proof.
  intros Hne Hp. unfold forward. destruct text as [|c r]; [congruence|].
  rewrite Hp. simpl onEvent. simpl onComplete.
  destruct (isGraphEnd chatStreamOptions payload) eqn:Hend.
  - apply isGraphEnd_spec in Hend. destruct Hend as (He & _).
    destruct (handleStreamPayload_returns payload _ st He) as [st' ->].
    simpl. split; intros _; [reflexivity | right; left; reflexivity].
  - destruct (handleStreamPayload payload st); simpl; split; intros H;
      try discriminate; repeat destruct H as [H|H]; try discriminate;
      try contradiction.
Qed.

(** C6 (amended). When the transport reports an error while a stream is
    open, the error callback fires, the handle is closed and discarded and
    the status returns to [Ready]; the transcript is kept and no
    notification is added. *)
Theorem transport_error_closes_stream st src :
  eventSourceRef st = Some src ->
  snd (sourceError chatStreamOptions st) = [CallError] /\
  eventSourceRef (fst (sourceError chatStreamOptions st)) = None /\
  closedSources (fst (sourceError chatStreamOptions st))
  = closedSources st ++ [src] /\
  status (fst (sourceError chatStreamOptions st)) = Ready /\
  messages (fst (sourceError chatStreamOptions st)) = messages st /\
  toasts (fst (sourceError chatStreamOptions st)) = toasts st.
Proof.
  intros Hsrc. unfold sourceError, chatStreamOptions, cleanup, closeCurrent.
  simpl. rewrite Hsrc. simpl. repeat split; reflexivity.
Qed.

(** C7. [sendMessage] with a status other than [Ready], or with a content
    that is empty once trimmed, shows a notice and changes nothing else:
    status, transcript, conversation id and stream handle are kept and no
    REST call is issued. *)
Theorem rejected_send_only_notifies msgParts st :
  status st <> Ready \/ messageContent msgParts = "" ->
  exists notice,
    sendMessage msgParts st = toast notice st /\
    toast_type notice = "error" /\
    status (sendMessage msgParts st) = status st /\
    messages (sendMessage msgParts st) = messages st /\
    conversationId (sendMessage msgParts st) = conversationId st /\
    conversationIdRef (sendMessage msgParts st) = conversationIdRef st /\
    eventSourceRef (sendMessage msgParts st) = eventSourceRef st /\
    restCalls (sendMessage msgParts st) = restCalls st /\
    toasts (sendMessage msgParts st) = toasts st ++ [notice].
Proof.
  intros H.
  assert (E : exists notice, sendMessage msgParts st = toast notice st /\
                             toast_type notice = "error").
  { unfold sendMessage. destruct (status st) eqn:Es.
    - destruct H as [H|H]; [congruence|]. rewrite H. simpl.
      eexists. split; reflexivity.
    - eexists. split; reflexivity.
    - eexists. split; reflexivity. }
  destruct E as (notice & E & Ht). exists notice. rewrite E.
  repeat split; auto.
Qed.

Lemma isNotFound_http_404 rest :
  isNotFound (ThrownError ("HTTP 404" ++ rest)) = true.
Proof. reflexivity. Qed.


(** * Further properties *)

(** ** Strings *)

Lemma string_length_app (a b : string) :
  String.length (a ++ b) = String.length a + String.length b.
Proof. induction a as [|c a IH]; simpl; [|rewrite IH]; reflexivity. Qed.

Lemma includesChar_app c (a b : string) :
  includesChar c (a ++ b) = includesChar c a || includesChar c b.
Proof.
  induction a as [|x a IH]; simpl; [reflexivity|].
  rewrite IH. apply orb_assoc.
Qed.

Lemma stripPrefix_Some p : forall s r, stripPrefix p s = Some r -> s = (p ++ r)%string.
Proof.
  induction p as [|a p IH]; intros s r; simpl.
  - intros [= ->]. reflexivity.
  - destruct s as [|b s]; [discriminate|].
    destruct (Ascii.eqb_spec a b) as [->|_]; [|discriminate].
    intros H. rewrite (IH _ _ H). reflexivity.
Qed.

Lemma stripPrefix_app p r : stripPrefix p (p ++ r) = Some r.
Proof.
  induction p as [|a p IH]; simpl; [reflexivity|].
  rewrite Ascii.eqb_refl. exact IH.
Qed.

Lemma span_app p s : (fst (span p s) ++ snd (span p s))%string = s.
Proof.
  induction s as [|c s IH]; simpl; [reflexivity|].
  destruct (p c); [|reflexivity].
  destruct (span p s) as [a b]. simpl in *. rewrite IH. reflexivity.
Qed.

Lemma span_all p a : forall b,
  (forall c, includesChar c a = true -> p c = true) ->
  match b with EmptyString => True | String c _ => p c = false end ->
  span p (a ++ b) = (a, b).
Proof.
  induction a as [|x a IH]; intros b Ha Hb; simpl.
  - destruct b as [|c b]; simpl; [reflexivity|]. rewrite Hb. reflexivity.
  - rewrite (Ha x) by (simpl; rewrite Ascii.eqb_refl; reflexivity).
    rewrite IH; [reflexivity| |exact Hb].
    intros c Hc. apply Ha. simpl. rewrite Hc. apply orb_true_r.
Qed.

Lemma replaceEscape_unfold x r c s :
  replaceEscape x r (String c s)
  = match s with
    | String d s'' =>
        if Ascii.eqb c backslash && Ascii.eqb d x
        then String r (replaceEscape x r s'')
        else String c (replaceEscape x r s)
    | EmptyString => String c EmptyString
    end.
Proof. destruct s; reflexivity. Qed.

Lemma replaceEscape_plain x r s :
  includesChar backslash s = false -> replaceEscape x r s = s.
Proof.
  induction s as [|c s IH]; [reflexivity|]. intros H.
  change (includesChar backslash (String c s))
    with (Ascii.eqb backslash c || includesChar backslash s) in H.
  apply orb_false_elim in H as [Hc Hs].
  rewrite replaceEscape_unfold. destruct s as [|d s]; [reflexivity|].
  rewrite Ascii.eqb_sym, Hc. simpl andb. cbv iota.
  rewrite (IH Hs). reflexivity.
Qed.

(** A text without a backslash has no escape sequence to replace:
    [normalizeEscapes] returns it as it is. *)
Theorem normalizeEscapes_plain text :
  includesChar backslash text = false -> normalizeEscapes text = text.
Proof.
  intros H. unfold normalizeEscapes.
  rewrite (replaceEscape_plain "n" newline text H).
  apply replaceEscape_plain, H.
Qed.

(** ** The patterns of [extractTextFromPythonLiteral] *)

Lemma stripPrefix_includes c p : forall s r,
  stripPrefix p s = Some r -> includesChar c p = true ->
  includesChar c s = true.
Proof.
  intros s r H Hc. rewrite (stripPrefix_Some _ _ _ H), includesChar_app, Hc.
  reflexivity.
Qed.

Lemma matchTextAt_needs_quote s :
  includesChar squote s = false -> matchTextAt s = None.
Proof.
  intros H. unfold matchTextAt.
  destruct (stripPrefix "'text':" s) as [r|] eqn:E; [|reflexivity].
  apply (stripPrefix_includes squote) in E; [congruence | reflexivity].
Qed.

Lemma matchContentAt_needs_quote s :
  includesChar squote s = false -> matchContentAt s = None.
Proof.
  intros H. unfold matchContentAt.
  destruct (stripPrefix "content='" s) as [r|] eqn:E; [|reflexivity].
  apply (stripPrefix_includes squote) in E; [congruence | reflexivity].
Qed.

Lemma matchAllText_zero s :
  matchAllText 0 s
  = match matchTextAt s with
    | Some (cap, len) =>
        cap :: match s with
               | EmptyString => []
               | String _ s' => matchAllText (len - 1) s'
               end
    | None =>
        match s with
        | EmptyString => []
        | String _ s' => matchAllText 0 s'
        end
    end.
Proof. destruct s; reflexivity. Qed.

Lemma matchContent_unfold s :
  matchContent s
  = match matchContentAt s with
    | Some cap => Some cap
    | None =>
        match s with
        | EmptyString => None
        | String _ s' => matchContent s'
        end
    end.
Proof. destruct s; reflexivity. Qed.

Lemma includesChar_tail c x s :
  includesChar c (String x s) = false -> includesChar c s = false.
Proof.
  change (includesChar c (String x s))
    with (Ascii.eqb c x || includesChar c s).
  intros H. apply orb_false_elim in H as [_ H]. exact H.
Qed.

Lemma matchAllText_quoteFree s :
  includesChar squote s = false -> matchAllText 0 s = [].
Proof.
  induction s as [|c s IH]; intros H; rewrite matchAllText_zero,
    (matchTextAt_needs_quote _ H); [reflexivity|].
  apply IH, (includesChar_tail _ _ _ H).
Qed.

Lemma matchContent_quoteFree s :
  includesChar squote s = false -> matchContent s = None.
Proof.
  induction s as [|c s IH]; intros H; rewrite matchContent_unfold,
    (matchContentAt_needs_quote _ H); [reflexivity|].
  apply IH, (includesChar_tail _ _ _ H).
Qed.

Lemma extractTextFromPythonLiteral_quoteFree raw :
  includesChar squote raw = false -> extractTextFromPythonLiteral raw = None.
Proof.
  intros H. unfold extractTextFromPythonLiteral.
  rewrite (matchAllText_quoteFree _ H), (matchContent_quoteFree _ H).
  reflexivity.
Qed.

(** X1. A string without a quote, that does not look like JSON, is already
    plain: [ensureString] returns it with its escape sequences replaced,
    and unchanged when it has no backslash either. *)
Theorem ensureString_plain_string s :
  looksLikeJson (trim s) = false ->
  includesChar squote s = false ->
  ensureString (JStr s) = Some (normalizeEscapes s) /\
  (includesChar backslash s = false -> ensureString (JStr s) = Some s).
Proof.
  intros Hj Hq.
  assert (E : ensureString (JStr s) = Some (normalizeEscapes s)).
  { unfold ensureString. rewrite ensureString_fuel_unfold. cbv zeta.
    rewrite Hj, (extractTextFromPythonLiteral_quoteFree _ Hq). reflexivity. }
  split; [exact E|]. intros Hb. rewrite E. unfold normalizeEscapes.
  rewrite !(replaceEscape_plain _ _ _ Hb). reflexivity.
Qed.

Lemma countChar_app c (a b : string) :
  countChar c (a ++ b) = countChar c a + countChar c b.
Proof.
  induction a as [|x a IH]; simpl; [reflexivity|]. rewrite IH. lia.
Qed.

Lemma countChar_zero c s : includesChar c s = false -> countChar c s = 0.
Proof.
  induction s as [|x s IH]; simpl; [reflexivity|].
  intros H. apply orb_false_elim in H as [Hx Hs]. rewrite Hx, (IH Hs).
  reflexivity.
Qed.

Lemma countChar_pos c s : includesChar c s = true -> 0 < countChar c s.
Proof.
  induction s as [|x s IH]; simpl; [discriminate|].
  destruct (Ascii.eqb c x); simpl; [lia | exact IH].
Qed.

Lemma quoteFree_notQuote s c :
  quoteFree s -> includesChar c s = true -> notQuote c = true.
Proof.
  unfold quoteFree, notQuote. intros Hs Hc.
  destruct (Ascii.eqb_spec c squote) as [->|_]; [congruence | reflexivity].
Qed.

(** A match of the first pattern starts with a quote and has two more
    quotes after it. *)
Lemma matchTextAt_Some_quotes s x :
  matchTextAt s = Some x ->
  exists t, s = String squote t /\ 2 <= countChar squote t.
Proof.
  unfold matchTextAt.
  destruct (stripPrefix "'text':" s) as [r1|] eqn:E; [|discriminate].
  apply stripPrefix_Some in E. subst s.
  pose proof (span_app is_space r1) as Hsp.
  destruct (snd (span is_space r1)) as [|q r2] eqn:E2; [discriminate|].
  destruct (Ascii.eqb_spec q squote) as [->|_]; [|discriminate].
  intros _. eexists. split; [reflexivity|].
  rewrite <- Hsp. simpl. rewrite countChar_app. simpl. lia.
Qed.

Lemma matchTextAt_few_quotes c t :
  countChar squote t < 2 -> matchTextAt (String c t) = None.
Proof.
  intros H. destruct (matchTextAt (String c t)) as [x|] eqn:E; [|reflexivity].
  apply matchTextAt_Some_quotes in E. destruct E as (t' & [= _ <-] & Hc). lia.
Qed.

(** The search skips a prefix without a quote. *)
Lemma matchAllText_prefix pre s :
  quoteFree pre -> matchAllText 0 (pre ++ s) = matchAllText 0 s.
Proof.
  induction pre as [|c pre IH]; intros H; [reflexivity|].
  change ((String c pre ++ s)%string) with (String c (pre ++ s)).
  rewrite matchAllText_zero.
  assert (Hc : matchTextAt (String c (pre ++ s)) = None).
  { destruct (matchTextAt (String c (pre ++ s))) as [x|] eqn:E; [|reflexivity].
    apply matchTextAt_Some_quotes in E. destruct E as (t & [= -> _] & _).
    unfold quoteFree in H. simpl in H. discriminate. }
  rewrite Hc. apply IH, (includesChar_tail _ _ _ H).
Qed.

Lemma matchAllText_skip a b :
  matchAllText (String.length a) (a ++ b) = matchAllText 0 b.
Proof. induction a as [|c a IH]; [reflexivity | exact IH]. Qed.

Lemma matchTextAt_fragment ws cap rest :
  allSpace ws -> quoteFree cap ->
  matchTextAt ("'text':" ++ ws ++ String squote (cap ++ String squote rest))
  = Some (cap, 7 + String.length ws + 1 + String.length cap + 1).
Proof.
  intros Hws Hcap. unfold matchTextAt.
  rewrite stripPrefix_app.
  rewrite (span_all is_space ws (String squote (cap ++ String squote rest)) Hws)
    by reflexivity.
  simpl snd. cbv iota. rewrite Ascii.eqb_refl.
  rewrite (span_all notQuote cap (String squote rest))
    by (try reflexivity; intros c; apply quoteFree_notQuote, Hcap).
  f_equal. f_equal.
  rewrite !string_length_app. simpl. rewrite !string_length_app. simpl. lia.
Qed.

(** X2. The first pattern on one fragment: in a text made of a prefix
    without a quote, the key ['text':], white space, a quoted text and a
    rest without a quote, [extractTextFromPythonLiteral] finds the quoted
    text and returns it with its escape sequences replaced. *)
Theorem python_text_fragment pre ws cap rest :
  quoteFree pre -> allSpace ws -> quoteFree cap -> quoteFree rest ->
  extractTextFromPythonLiteral
    (pre ++ "'text':" ++ ws ++ String squote (cap ++ String squote rest))
  = Some (normalizeEscapes cap).
Proof.
  intros Hpre Hws Hcap Hrest. unfold extractTextFromPythonLiteral.
  rewrite (matchAllText_prefix _ _ Hpre), matchAllText_zero,
    (matchTextAt_fragment ws cap rest Hws Hcap).
  change (("'text':" ++ ws ++ String squote (cap ++ String squote rest))%string)
    with (String squote
            ("text':" ++ ws ++ String squote (cap ++ String squote rest))).
  cbv iota.
  assert (E : ("text':" ++ ws ++ String squote (cap ++ String squote rest))%string
              = (("text':" ++ ws ++ String squote (cap ++ String squote ""))
                 ++ rest)%string).
  { rewrite !string_app_assoc. simpl. rewrite string_app_assoc. reflexivity. }
  rewrite E.
  replace (7 + String.length ws + 1 + String.length cap + 1 - 1)
    with (String.length
            ("text':" ++ ws ++ String squote (cap ++ String squote ""))%string)
    by (rewrite !string_length_app; simpl; rewrite !string_length_app; simpl; lia).
  rewrite matchAllText_skip, (matchAllText_quoteFree _ Hrest).
  simpl. rewrite string_app_nil_r. reflexivity.
Qed.

Lemma quoteFree_app a b : quoteFree a -> quoteFree b -> quoteFree (a ++ b).
Proof.
  unfold quoteFree. intros Ha Hb. rewrite includesChar_app, Ha, Hb.
  reflexivity.
Qed.

Lemma quoteFree_tail c s : quoteFree (String c s) -> quoteFree s.
Proof. apply includesChar_tail. Qed.

Lemma span_notQuote a b :
  quoteFree a -> span notQuote (a ++ String squote b) = (a, String squote b).
Proof.
  intros Ha. apply span_all; [|reflexivity].
  intros c. apply quoteFree_notQuote, Ha.
Qed.

(** The second pattern does not match where the first quote comes too
    late. *)
Lemma matchContentAt_late_quote c pre rest :
  quoteFree (String c pre) ->
  matchContentAt (String c (pre ++ "content='" ++ rest)) = None.
Proof.
  intros Hpre.
  destruct (matchContentAt (String c (pre ++ "content='" ++ rest)))
    as [cap|] eqn:E; [|reflexivity].
  unfold matchContentAt in E.
  destruct (stripPrefix "content='" (String c (pre ++ "content='" ++ rest)))
    as [r|] eqn:Es; [|discriminate].
  apply stripPrefix_Some in Es.
  assert (H1 : span notQuote (String c (pre ++ "content='" ++ rest))
               = ((String c pre ++ "content=")%string, String squote rest)).
  { replace (String c (pre ++ "content='" ++ rest))
      with ((String c pre ++ "content=") ++ String squote rest)%string
      by (rewrite string_app_assoc; reflexivity).
    apply span_notQuote, quoteFree_app; [exact Hpre | reflexivity]. }
  assert (H2 : span notQuote ("content='" ++ r) = ("content=", String squote r))
    by (apply (span_notQuote "content=" r); reflexivity).
  rewrite Es, H2 in H1.
  apply (f_equal (fun p => String.length (fst p))) in H1.
  cbv beta in H1. unfold fst in H1.
  rewrite string_length_app in H1. simpl in H1. lia.
Qed.

Lemma matchContent_prefix pre rest :
  quoteFree pre ->
  matchContent (pre ++ "content='" ++ rest)
  = matchContent ("content='" ++ rest).
Proof.
  induction pre as [|c pre IH]; intros H; [reflexivity|].
  change ((String c pre ++ "content='" ++ rest)%string)
    with (String c (pre ++ "content='" ++ rest)).
  rewrite matchContent_unfold, (matchContentAt_late_quote _ _ _ H).
  apply IH, (quoteFree_tail _ _ H).
Qed.

(** X3. The second pattern on one fragment: in a text made of a prefix
    without a quote, [content=], a non-empty quoted text and a rest
    without a quote, [extractTextFromPythonLiteral] finds no ['text':]
    fragment and returns the quoted text with its escape sequences
    replaced. *)
Theorem python_content_fragment pre cap rest :
  quoteFree pre -> quoteFree cap -> cap <> "" -> quoteFree rest ->
  extractTextFromPythonLiteral
    (pre ++ "content='" ++ cap ++ String squote rest)
  = Some (normalizeEscapes cap).
Proof.
  intros Hpre Hcap Hne Hrest. unfold extractTextFromPythonLiteral.
  assert (Hnone : matchAllText 0
                    (pre ++ "content='" ++ cap ++ String squote rest) = []).
  { replace (pre ++ "content='" ++ cap ++ String squote rest)%string
      with ((pre ++ "content=")
            ++ String squote (cap ++ String squote rest))%string
      by (rewrite string_app_assoc; reflexivity).
    rewrite matchAllText_prefix
      by (apply quoteFree_app; [exact Hpre | reflexivity]).
    rewrite matchAllText_zero, matchTextAt_few_quotes
      by (rewrite countChar_app, (countChar_zero _ _ Hcap); simpl;
          rewrite (countChar_zero _ _ Hrest); lia).
    rewrite (matchAllText_prefix _ _ Hcap), matchAllText_zero,
      matchTextAt_few_quotes
      by (rewrite (countChar_zero _ _ Hrest); lia).
    apply matchAllText_quoteFree, Hrest. }
  rewrite Hnone, (matchContent_prefix _ _ Hpre), matchContent_unfold.
  unfold matchContentAt. rewrite stripPrefix_app, (span_notQuote _ _ Hcap).
  destruct cap as [|c cap]; [congruence | reflexivity].
Qed.

(** ** [ensureString] *)

Lemma map_partText_strings l : map partText (map JStr l) = l.
Proof.
  induction l as [|x l IH]; simpl; [|rewrite IH]; reflexivity.
Qed.

(** An array of strings normalizes to their concatenation, and to
    [null] when the concatenation is empty. *)
Theorem ensureString_array_of_strings l :
  ensureString (JArr (map JStr l))
  = match concatStrings l with
    | EmptyString => None
    | String c r => Some (String c r)
    end.
Proof.
  unfold ensureString. rewrite ensureString_fuel_unfold. cbv zeta.
  rewrite map_partText_strings. destruct (concatStrings l); reflexivity.
Qed.

(** A string that looks like JSON normalizes to what its parsed value
    normalizes to, when that is a non-empty text; when the parse fails or
    the value has no text, the string is handled as a plain text. *)
Theorem ensureString_json_string s :
  looksLikeJson (trim s) = true ->
  ensureString (JStr s)
  = match JSON_parse (trim s) with
    | Some parsed =>
        match ensureString parsed with
        | Some (String c r) => Some (String c r)
        | _ => plainText s
        end
    | None => plainText s
    end.
Proof using JSON_parse_size.
  intros Hj. unfold ensureString at 1. rewrite ensureString_fuel_unfold.
  cbv zeta. rewrite Hj. fold (plainText s).
  destruct (JSON_parse (trim s)) as [parsed|] eqn:Hp; [|reflexivity].
  apply JSON_parse_size in Hp. pose proof (trim_length s) as Ht.
  rewrite ensureString_fuel_spec by (simpl; lia).
  destruct (ensureString parsed) as [[|c r]|]; reflexivity.
Qed.

(** ** The extractors *)

(** X5. A payload that is not an object has no candidate field: both
    extractors return [null], also for a payload that is itself a text or
    an array of texts. *)
Theorem extractors_need_an_object payload :
  (forall fields, payload <> JObj fields) ->
  extractStreamText payload = None /\ extractFinalText payload = None.
Proof.
  intros H. unfold extractStreamText, extractFinalText.
  destruct payload; try (destruct (truthy _); split; reflexivity).
  exfalso. eapply H. reflexivity.
Qed.

(** The first candidate wins: a streaming payload whose
    [chunk.content] normalizes to a non-empty text gives that text,
    whatever its other fields hold, and so does a final payload with its
    [data.output.content]. *)
Theorem top_candidate_wins payload :
  (forall c r,
      ensureString (getProp (getProp payload "chunk") "content")
      = Some (String c r) ->
      extractStreamText payload = Some (String c r)) /\
  (forall c r,
      ensureString (getProp (getProp (getProp payload "data") "output")
                      "content")
      = Some (String c r) ->
      extractFinalText payload = Some (String c r)).
Proof.
  split; intros c r H.
  - assert (Ht : truthy payload = true).
    { destruct payload; try reflexivity; cbv in H; discriminate. }
    unfold extractStreamText. rewrite Ht. unfold streamCandidates.
    cbv zeta. simpl firstText. rewrite H. reflexivity.
  - assert (Ht : truthy payload = true).
    { destruct payload; try reflexivity; cbv in H; discriminate. }
    unfold extractFinalText. rewrite Ht. unfold finalCandidates.
    cbv zeta. simpl firstText. rewrite H. reflexivity.
Qed.

(** ** The listeners of the adapter *)

Lemma inList_false_In x l : inList x l = false -> ~ In x l.
Proof.
  intros H Hin. apply inList_In in Hin. congruence.
Qed.

Lemma dispatchTo_unsubscribed {W} (opts : ConversationStreamOptions W)
  listeners channel data w :
  ~ In channel listeners ->
  dispatchTo opts listeners channel data w = (w, []).
Proof.
  induction listeners as [|n rest IH]; intros H; simpl; [reflexivity|].
  destruct (String.eqb_spec n channel) as [->|_].
  - exfalso. apply H. left. reflexivity.
  - apply IH. intros Hin. apply H. right. exact Hin.
Qed.

(** X6. A frame of a channel that is not among the subscribed names
    reaches no listener: no callback is invoked and the world is kept. *)
Theorem unsubscribed_channel_is_ignored {W}
  (opts : ConversationStreamOptions W) channel data w :
  ~ In channel (names opts) ->
  dispatchFrame opts channel data w = (w, []).
Proof. apply dispatchTo_unsubscribed. Qed.

(** X7. When the subscribed names are distinct, as the default names
    are, a frame of a subscribed channel is handled exactly once, by the
    listener of that channel. *)
Theorem subscribed_channel_forwards_once {W}
  (opts : ConversationStreamOptions W) channel data w :
  List.NoDup (names opts) ->
  In channel (names opts) ->
  dispatchFrame opts channel data w = forward opts channel data w.
Proof.
  unfold dispatchFrame. generalize (names opts) as listeners.
  induction listeners as [|n rest IH]; intros Hnd Hin; [destruct Hin|].
  apply List.NoDup_cons_iff in Hnd as [Hn Hrest]. simpl.
  destruct (String.eqb_spec n channel) as [->|Hne].
  - destruct (forward opts channel data w) as [w1 c1].
    rewrite (dispatchTo_unsubscribed opts rest channel data w1 Hn).
    rewrite app_nil_r. reflexivity.
  - destruct Hin as [E|Hin]; [congruence|]. apply IH; assumption.
Qed.

(** X8. A frame that parses reaches the event callback first, with the
    parsed payload and the name of the channel; at most one call of the
    completion callback follows, and the error callback is never invoked
    by a frame. *)
Theorem forward_calls_event_first {W} (opts : ConversationStreamOptions W)
  name text payload f w :
  text <> "" ->
  JSON_parse text = Some payload ->
  onEvent opts = Some f ->
  snd (forward opts name (Some text) w) = [CallEvent payload name] \/
  snd (forward opts name (Some text) w)
  = [CallEvent payload name; CallComplete].
Proof.
  intros Hne Hp Hf. unfold forward.
  destruct text as [|c r]; [congruence|]. rewrite Hp, Hf.
  destruct (f payload name w); [|left; reflexivity].
  destruct (isGraphEnd opts payload); [|left; reflexivity].
  destruct (onComplete opts); [right | left]; reflexivity.
Qed.

Lemma forward_no_error_call {W} (opts : ConversationStreamOptions W)
  name data w :
  ~ In CallError (snd (forward opts name data w)).
Proof.
  unfold forward. destruct data as [[|c r]|]; simpl; try tauto.
  destruct (JSON_parse (String c r)) as [payload|]; simpl; [|tauto].
  destruct (onEvent opts) as [f|].
  - destruct (f payload (name) w); simpl; [|intuition discriminate].
    destruct (isGraphEnd opts payload); simpl; [|intuition discriminate].
    destruct (onComplete opts); simpl; intuition discriminate.
  - destruct (isGraphEnd opts payload); simpl; [|tauto].
    destruct (onComplete opts); simpl; intuition discriminate.
Qed.

(** No frame, on any channel, invokes the error callback: it is
    reserved to the transport. *)
Theorem frames_never_call_onError {W} (opts : ConversationStreamOptions W)
  channel data w :
  ~ In CallError (snd (dispatchFrame opts channel data w)).
Proof.
  unfold dispatchFrame. generalize (names opts) as listeners.
  intros listeners. revert w.
  induction listeners as [|n rest IH]; intros w; simpl; [tauto|].
  destruct (String.eqb n channel); [|apply IH].
  pose proof (forward_no_error_call opts n data w) as H1.
  destruct (forward opts n data w) as [w1 c1].
  pose proof (IH w1) as H2.
  destruct (dispatchTo opts rest channel data w1) as [w2 c2].
  simpl in *. rewrite in_app_iff. tauto.
Qed.

(** ** What a stream payload can and cannot change *)

Ltac aggregate :=
  repeat first
    [ apply agg_refl
    | eapply agg_step;
      [| first [apply step_update | apply step_error | apply step_log]] ].

(** Handling a payload is a sequence of actions of the aggregator. *)
Lemma handleStreamPayload_aggregated payload st :
  aggregated st (stateOf (handleStreamPayload payload st)).
Proof.
  unfold handleStreamPayload, appendChunk, appendTextDelta,
    appendReasoningDelta, replaceFinalText, replaceFinalReasoning,
    updateAssistantMessage, updateAssistantReasoning.
  destruct (negb (truthy payload)); [apply agg_refl|].
  destruct (eventTypeOf payload) as [eventType|]; [|simpl; aggregate].
  destruct (inList eventType deltaEventTypes).
  - destruct (extractStreamText payload) as [[|c r]|];
      destruct (reasoningDeltaOf payload) as [| | | |[|c' r']| |];
      simpl; aggregate.
  - destruct (String.eqb eventType "on_chat_model_end").
    + destruct (extractFinalText payload) as [[|c r]|];
        destruct (finalReasoningOf payload) as [| | | |[|c' r']| |];
        simpl; aggregate.
    + destruct (String.eqb eventType "on_chain_error"); simpl; aggregate.
Qed.

(** A property of states kept by every action is kept by a payload. *)
Lemma aggregated_ind_keep (P : ChatState -> Prop) st st' :
  (forall s s', aggregatorStep s s' -> P s -> P s') ->
  aggregated st st' -> P st -> P st'.
Proof.
  intros Hstep Hagg. induction Hagg as [|s s' s'' _ IH Hs]; [tauto|].
  intros HP. apply (Hstep _ _ Hs), IH, HP.
Qed.

Lemma setMessages_sameSession u st : sameSession st (setMessages u st).
Proof.
  unfold setMessages, sameSession. destruct (u (messages st));
    repeat split; reflexivity.
Qed.

Lemma aggregatorStep_sameSession s s' :
  aggregatorStep s s' -> sameSession s s'.
Proof.
  intros [f st|partType updater st|notice st].
  - repeat split; reflexivity.
  - apply setMessages_sameSession.
  - repeat split; reflexivity.
Qed.

Lemma handleStreamPayload_sameSession payload st :
  sameSession st (stateOf (handleStreamPayload payload st)).
Proof.
  apply (aggregated_ind_keep (sameSession st) st _); [| |].
  - intros s s' Hs (H1 & H2 & H3 & H4 & H5 & H6 & H7).
    destruct (aggregatorStep_sameSession _ _ Hs)
      as (G1 & G2 & G3 & G4 & G5 & G6 & G7).
    unfold sameSession. rewrite G1, G2, G3, G4, G5, G6, G7.
    repeat split; assumption.
  - apply handleStreamPayload_aggregated.
  - repeat split; reflexivity.
Qed.

(** X9. Handling a stream payload, whatever it holds, leaves the
    conversation id, the stream handle, the closed streams, the REST calls
    and the address alone: a payload never opens or closes a stream and
    never calls the backend. *)
Theorem stream_payload_keeps_session payload st :
  sameSession st (stateOf (handleStreamPayload payload st)).
Proof. apply handleStreamPayload_sameSession. Qed.

(** The transcript after an update: the same, or with new parts in the
    last turn. *)
Lemma updateLastAssistantPart_messages partType updater st :
  messages (updateLastAssistantPart partType updater st) = messages st \/
  exists init m nextText,
    messages st = init ++ [m] /\
    role m = "assistant" /\
    messages (updateLastAssistantPart partType updater st)
    = init ++ [withParts m (nextPartsOf partType (parts m) nextText)].
Proof.
  unfold updateLastAssistantPart, setMessages.
  destruct (snoc_cases (messages st)) as [E | (init & m & E)]; rewrite E.
  - left. simpl. exact E.
  - destruct (String.eqb_spec (role m) "assistant") as [Hr|Hr].
    + rewrite (lastAssistantPartUpdater_assistant _ _ _ _ Hr).
      destruct (updater (previousTextOf partType (parts m))) as [nextText|];
        [|left; assumption].
      destruct (String.eqb nextText (previousTextOf partType (parts m)));
        [left; assumption|].
      right. exists init, m, nextText. repeat split; [exact Hr].
    + rewrite (lastAssistantPartUpdater_other _ _ _ _ Hr). left. assumption.
Qed.

(** A property of transcripts kept by the replacement of the parts of the
    last turn is kept by a payload. *)
Lemma stream_payload_keeps (Q : list ChatMessage -> Prop) payload st :
  (forall partType init m nextText,
      Q (init ++ [m]) ->
      Q (init ++ [withParts m (nextPartsOf partType (parts m) nextText)])) ->
  Q (messages st) ->
  Q (messages (stateOf (handleStreamPayload payload st))).
Proof.
  intros HQ.
  apply (aggregated_ind_keep (fun s => Q (messages s)) st _);
    [|apply handleStreamPayload_aggregated].
  intros s s' [f st0|partType updater st0|notice st0] H; try exact H.
  destruct (updateLastAssistantPart_messages partType updater st0)
    as [E | (init & m & nextText & E1 & _ & E2)].
  - rewrite E. exact H.
  - rewrite E2. apply HQ. rewrite <- E1. exact H.
Qed.

(** X10. Handling a stream payload never adds, removes or reorders turns,
    and keeps the id, the role and the creation time of every turn: only
    parts change. *)
Theorem stream_payload_keeps_turns payload st :
  map turnHeader (messages (stateOf (handleStreamPayload payload st)))
  = map turnHeader (messages st).
Proof.
  apply (stream_payload_keeps
           (fun msgs => map turnHeader msgs = map turnHeader (messages st)));
    [|reflexivity].
  intros partType init m nextText H.
  rewrite map_app in *. exact H.
Qed.

Lemma countParts_cons partType part rest :
  countParts partType (part :: rest)
  = (if isPartOfType partType part then 1 else 0) + countParts partType rest.
Proof.
  unfold countParts. simpl. destruct (isPartOfType partType part); reflexivity.
Qed.

Lemma isPartOfType_new partType partType' nextText :
  isPartOfType partType'
    (JObj [("type", JStr (partTypeName partType)); ("text", JStr nextText)])
  = String.eqb (partTypeName partType) (partTypeName partType').
Proof. reflexivity. Qed.

Lemma partTypeName_eqb partType partType' :
  String.eqb (partTypeName partType) (partTypeName partType')
  = if decide (partType = partType') then true else false.
Proof.
  destruct partType, partType'; reflexivity.
Qed.

(** The update leaves one part of its kind where there was none, and as
    many as there were otherwise; it keeps the number of the other kind. *)
Lemma countParts_nextPartsOf partType partType' msgParts nextText :
  countParts partType' (nextPartsOf partType msgParts nextText)
  = if decide (partType = partType')
    then Nat.max 1 (countParts partType' msgParts)
    else countParts partType' msgParts.
Proof.
  induction msgParts as [|part rest IH].
  - unfold nextPartsOf. simpl. rewrite countParts_cons, isPartOfType_new,
      partTypeName_eqb. destruct (decide (partType = partType')); reflexivity.
  - rewrite nextPartsOf_cons.
    destruct (isPartOfType partType part) eqn:E.
    + rewrite !countParts_cons, isPartOfType_rebuilt, partTypeName_eqb.
      destruct (decide (partType = partType')) as [<-|Hne].
      * rewrite E. simpl. reflexivity.
      * rewrite (isPartOfType_exclusive _ _ _ Hne E). reflexivity.
    + rewrite !countParts_cons, IH.
      destruct (decide (partType = partType')) as [<-|Hne].
      * rewrite E. reflexivity.
      * reflexivity.
Qed.

(** X11. Turns with at most one text part and at most one reasoning part
    stay so under every stream payload: an update replaces the part of its
    kind in place, and adds one only where there was none. *)
Theorem stream_payload_keeps_single_parts payload st :
  Forall singleParts (messages st) ->
  Forall singleParts (messages (stateOf (handleStreamPayload payload st))).
Proof.
  apply (stream_payload_keeps (Forall singleParts)).
  intros partType init m nextText H.
  apply Forall_app in H as [Hinit Hm]. apply Forall_app. split; [exact Hinit|].
  apply Forall_cons_iff in Hm as [[Ht Hr] _].
  constructor; [|constructor]. unfold singleParts. simpl parts.
  rewrite !countParts_nextPartsOf.
  destruct (decide (partType = TextPart));
    destruct (decide (partType = ReasoningPart)); lia.
Qed.

Lemma updateLastAssistantPart_log partType updater st :
  dataStream (updateLastAssistantPart partType updater st) = dataStream st /\
  status (updateLastAssistantPart partType updater st) = status st /\
  toasts (updateLastAssistantPart partType updater st) = toasts st.
Proof.
  unfold updateLastAssistantPart, setMessages.
  destruct (lastAssistantPartUpdater partType updater (messages st));
    repeat split; reflexivity.
Qed.

(** X12. Every truthy payload is added to the data stream, once and at the
    end, whatever else its handling does and also when it throws; a falsy
    payload leaves the state untouched. *)
Theorem stream_payload_is_logged payload st :
  if truthy payload
  then dataStream (stateOf (handleStreamPayload payload st))
       = dataStream st ++ [payload]
  else handleStreamPayload payload st = Normal st.
Proof.
  unfold handleStreamPayload, appendChunk, appendTextDelta,
    appendReasoningDelta, replaceFinalText, replaceFinalReasoning,
    updateAssistantMessage, updateAssistantReasoning.
  destruct (truthy payload); [|reflexivity]. simpl negb. cbv iota.
  destruct (eventTypeOf payload) as [eventType|]; [|reflexivity].
  destruct (inList eventType deltaEventTypes).
  - destruct (extractStreamText payload) as [[|c r]|];
      destruct (reasoningDeltaOf payload) as [| | | |[|c' r']| |];
      simpl stateOf;
      repeat rewrite (proj1 (updateLastAssistantPart_log _ _ _));
      reflexivity.
  - destruct (String.eqb eventType "on_chat_model_end").
    + destruct (extractFinalText payload) as [[|c r]|];
        destruct (finalReasoningOf payload) as [| | | |[|c' r']| |];
        simpl stateOf;
        repeat rewrite (proj1 (updateLastAssistantPart_log _ _ _));
        reflexivity.
    + destruct (String.eqb eventType "on_chain_error"); reflexivity.
Qed.

(** What [handleStreamPayload] does with an event type it has no case
    for. *)
Lemma handleStreamPayload_unhandled payload eventType st :
  truthy payload = true ->
  eventTypeOf payload = Some eventType ->
  inList eventType handledEventTypes = false ->
  handleStreamPayload payload st
  = Normal (setDataStream (fun prev => prev ++ [payload]) st).
Proof.
  intros Ht He Hn. unfold handleStreamPayload. rewrite Ht, He. simpl negb.
  cbv iota. unfold handledEventTypes, inList in Hn.
  rewrite existsb_app in Hn. apply orb_false_elim in Hn as [Hd Ho].
  fold (inList eventType deltaEventTypes) in Hd. rewrite Hd.
  simpl in Ho. rewrite orb_false_r in Ho.
  apply orb_false_elim in Ho as [H1 H2]. rewrite H1, H2. reflexivity.
Qed.

(** X13. A truthy payload of an event type other than the streaming
    deltas, [on_chat_model_end] and [on_chain_error] (tool and chain
    events, a payload without [event] and [type]) is only added to the
    data stream: the transcript, the status and the notices are kept. *)
Theorem unhandled_event_is_only_logged payload eventType st :
  truthy payload = true ->
  eventTypeOf payload = Some eventType ->
  inList eventType handledEventTypes = false ->
  exists st',
    handleStreamPayload payload st = Normal st' /\
    dataStream st' = dataStream st ++ [payload] /\
    messages st' = messages st /\
    transcriptRenders st' = transcriptRenders st /\
    status st' = status st /\
    toasts st' = toasts st.
Proof.
  intros Ht He Hn. eexists. split.
  - apply (handleStreamPayload_unhandled _ _ _ Ht He Hn).
  - repeat split; reflexivity.
Qed.

(** X14. A chain error shows one error notice with the payload's
    [data.message], else its [data.error], else the default text, and sets
    the status to [Ready]; it keeps the transcript and leaves the stream
    handle open. *)
Theorem chain_error_notifies_and_keeps_stream payload st :
  eventTypeOf payload = Some "on_chain_error" ->
  exists st',
    handleStreamPayload payload st = Normal st' /\
    toasts st' = toasts st ++ [errorToast (chainErrorMessage payload)] /\
    status st' = Ready /\
    messages st' = messages st /\
    eventSourceRef st' = eventSourceRef st /\
    closedSources st' = closedSources st.
Proof.
  intros He.
  pose proof (eventTypeOf_truthy _ _ He ltac:(discriminate)) as Ht.
  unfold handleStreamPayload. rewrite Ht, He. simpl negb. cbv iota.
  change (inList "on_chain_error" deltaEventTypes) with false.
  change ("on_chain_error" =? "on_chat_model_end")%string with false.
  change ("on_chain_error" =? "on_chain_error")%string with true.
  cbv iota. eexists. split; [reflexivity|]. repeat split; reflexivity.
Qed.

(** X15. With the callbacks of the component, a frame that ends the graph
    closes and discards the open stream and sets the status to [Ready];
    its payload is logged, and the transcript and the notices are kept. *)
Theorem graph_end_closes_stream name text payload st src :
  text <> "" ->
  JSON_parse text = Some payload ->
  isGraphEnd chatStreamOptions payload = true ->
  eventSourceRef st = Some src ->
  eventSourceRef (fst (forward chatStreamOptions name (Some text) st)) = None /\
  closedSources (fst (forward chatStreamOptions name (Some text) st))
  = closedSources st ++ [src] /\
  status (fst (forward chatStreamOptions name (Some text) st)) = Ready /\
  dataStream (fst (forward chatStreamOptions name (Some text) st))
  = dataStream st ++ [payload] /\
  messages (fst (forward chatStreamOptions name (Some text) st)) = messages st /\
  toasts (fst (forward chatStreamOptions name (Some text) st)) = toasts st.
Proof.
  intros Hne Hp Hend Hsrc.
  pose proof Hend as Hspec. apply isGraphEnd_spec in Hspec.
  destruct Hspec as (He & _).
  assert (Het : eventTypeOf payload = Some "on_chain_end")
    by (unfold eventTypeOf; rewrite He; reflexivity).
  pose proof (eventTypeOf_truthy _ _ Het ltac:(discriminate)) as Ht.
  unfold forward. destruct text as [|c r]; [congruence|].
  rewrite Hp, Hend. simpl onEvent. simpl onComplete. cbv beta iota.
  rewrite (handleStreamPayload_unhandled payload "on_chain_end" st Ht Het
             eq_refl).
  unfold cleanup, closeCurrent. simpl. rewrite Hsrc. simpl.
  repeat split; reflexivity.
Qed.

(** ** Updates of a part *)

Lemma setField_present k v fields :
  lookupField k fields = v -> v <> JUndefined -> setField k v fields = fields.
Proof.
  induction fields as [|[k' v'] rest IH]; simpl; [congruence|].
  destruct (String.eqb_spec k k') as [->|_].
  - intros -> _. reflexivity.
  - intros H Hv. rewrite (IH H Hv). reflexivity.
Qed.

Lemma setField_twice k v1 v2 fields :
  setField k v2 (setField k v1 fields) = setField k v2 fields.
Proof.
  induction fields as [|[k' v'] rest IH]; simpl.
  - rewrite String.eqb_refl. reflexivity.
  - destruct (String.eqb k k') eqn:E; simpl.
    + rewrite String.eqb_refl. reflexivity.
    + rewrite E, IH. reflexivity.
Qed.

Lemma isPartOfType_object partType part :
  isPartOfType partType part = true ->
  exists fields,
    part = JObj fields /\
    lookupField "type" fields = JStr (partTypeName partType).
Proof.
  unfold isPartOfType. destruct part; simpl; try discriminate.
  destruct (lookupField "type" fields) as [| | | |t| |] eqn:E;
    try discriminate.
  intros H. apply String.eqb_eq in H. subst t. eexists.
  split; [reflexivity | exact E].
Qed.

(** Rebuilding a rebuilt part gives what rebuilding the first part gives. *)
Lemma rebuiltPart_twice partType part text1 text2 :
  isPartOfType partType part = true ->
  rebuiltPart partType (Some (rebuiltPart partType (Some part) text1)) text2
  = rebuiltPart partType (Some part) text2.
Proof.
  intros H. destruct (isPartOfType_object _ _ H) as (fields & -> & Hty).
  unfold rebuiltPart. f_equal.
  rewrite (setField_present "type" _ fields Hty) by discriminate.
  rewrite (setField_present "type" (JStr (partTypeName partType))
             (setField "text" (JStr text1) fields))
    by (try discriminate;
        rewrite lookupField_setField_other by discriminate; exact Hty).
  apply setField_twice.
Qed.

(** Two updates of a kind of part leave what the second alone leaves. *)
Lemma nextPartsOf_twice partType msgParts text1 text2 :
  nextPartsOf partType (nextPartsOf partType msgParts text1) text2
  = nextPartsOf partType msgParts text2.
Proof.
  induction msgParts as [|part rest IH].
  - destruct partType; reflexivity.
  - rewrite !(nextPartsOf_cons partType part rest).
    destruct (isPartOfType partType part) eqn:E; rewrite nextPartsOf_cons.
    + rewrite isPartOfType_rebuilt, String.eqb_refl.
      rewrite (rebuiltPart_twice _ _ _ _ E). reflexivity.
    + rewrite E, IH. reflexivity.
Qed.

(** An update with the text the part already holds rebuilds the same
    parts, when that text is not empty. *)
Lemma nextPartsOf_same_text partType msgParts :
  previousTextOf partType msgParts <> "" ->
  nextPartsOf partType msgParts (previousTextOf partType msgParts) = msgParts.
Proof.
  induction msgParts as [|part rest IH]; [intros H; exfalso; apply H; reflexivity|].
  rewrite previousTextOf_cons, nextPartsOf_cons.
  destruct (isPartOfType partType part) eqn:E.
  - intros Hne. f_equal.
    destruct (isPartOfType_object _ _ E) as (fields & -> & Hty).
    unfold rebuiltPart. f_equal. simpl getProp in *.
    rewrite (setField_present "type" _ fields Hty) by discriminate.
    destruct (lookupField "text" fields) as [| | | |t| |] eqn:Et;
      try (exfalso; apply Hne; reflexivity).
    apply setField_present; [exact Et | discriminate].
  - intros Hne. rewrite (IH Hne). reflexivity.
Qed.

Lemma replace_then_same partType text st :
  lastAssistantPartUpdater partType (fun _ => Some text)
    (messages (updateLastAssistantPart partType (fun _ => Some text) st))
  = Same.
Proof.
  destruct (snoc_cases (messages st)) as [Em | (init & m & Em)].
  - unfold updateLastAssistantPart, setMessages. rewrite Em. simpl.
    rewrite Em. reflexivity.
  - destruct (String.eqb_spec (role m) "assistant") as [Hr|Hr].
    + destruct (update_last_assistant partType (fun _ => text) st init m Em Hr)
        as (m' & Hm' & Hr' & Ht & _).
      rewrite Hm', (lastAssistantPartUpdater_assistant _ _ _ _ Hr'), Ht,
        String.eqb_refl.
      reflexivity.
    + unfold updateLastAssistantPart, setMessages.
      rewrite Em, (lastAssistantPartUpdater_other _ _ _ _ Hr), Em.
      apply lastAssistantPartUpdater_other, Hr.
Qed.

(** X16. Replacing a part's text is idempotent: the same replacement
    applied again hands back the very same state, without a render. *)
Theorem replace_is_idempotent partType text st :
  updateLastAssistantPart partType (fun _ => Some text)
    (updateLastAssistantPart partType (fun _ => Some text) st)
  = updateLastAssistantPart partType (fun _ => Some text) st.
Proof.
  unfold updateLastAssistantPart at 1. unfold setMessages.
  rewrite replace_then_same. reflexivity.
Qed.

(** The transcript after a replacement, on a transcript that ends with an
    assistant turn. *)
Lemma replace_messages partType text st init m :
  text <> "" ->
  messages st = init ++ [m] ->
  role m = "assistant" ->
  messages (updateLastAssistantPart partType (fun _ => Some text) st)
  = init ++ [withParts m (nextPartsOf partType (parts m) text)].
Proof.
  intros Hne Hm Hr. unfold updateLastAssistantPart, setMessages.
  rewrite Hm, (lastAssistantPartUpdater_assistant _ _ _ _ Hr).
  destruct (String.eqb_spec text (previousTextOf partType (parts m)))
    as [E|_]; [|reflexivity].
  rewrite Hm. subst text. rewrite (nextPartsOf_same_text _ _ Hne).
  destruct m; reflexivity.
Qed.

(** X17. The final text forgets the deltas: replacing the text after a
    delta was appended leaves the transcript that replacing it at once
    leaves, down to every part and property. *)
Theorem final_text_forgets_deltas chunk text st :
  text <> "" ->
  messages (replaceFinalText text (appendTextDelta chunk st))
  = messages (replaceFinalText text st).
Proof.
  intros Hne. unfold replaceFinalText, appendTextDelta, updateAssistantMessage.
  destruct (updateLastAssistantPart_messages TextPart
              (fun previous => Some (previous ++ chunk)%string) st)
    as [E | (init & m & nextText & E1 & Hr & E2)].
  - destruct (snoc_cases (messages st)) as [Em | (init & m & Em)].
    + unfold updateLastAssistantPart at 1 3. unfold setMessages.
      rewrite E, Em. simpl. exact E.
    + destruct (String.eqb_spec (role m) "assistant") as [Hr|Hr].
      * rewrite (replace_messages _ _ _ init m Hne (eq_trans E Em) Hr).
        rewrite (replace_messages _ _ _ init m Hne Em Hr). reflexivity.
      * unfold updateLastAssistantPart at 1 3. unfold setMessages.
        rewrite E, Em, (lastAssistantPartUpdater_other _ _ _ _ Hr).
        exact E.
  - rewrite (replace_messages _ _ _ init
               (withParts m (nextPartsOf TextPart (parts m) nextText))
               Hne E2 Hr).
    rewrite (replace_messages _ _ _ init m Hne E1 Hr).
    simpl. rewrite nextPartsOf_twice. reflexivity.
Qed.

Lemma findIndex_cons {A} (p : A -> bool) x l :
  findIndex p (x :: l)
  = if p x then Some 0
    else match findIndex p l with
         | Some i => Some (S i)
         | None => None
         end.
Proof. reflexivity. Qed.

Lemma rebuiltPart_other_field partType part nextText k :
  isPartOfType partType part = true ->
  k <> "type" -> k <> "text" ->
  getProp (rebuiltPart partType (Some part) nextText) k = getProp part k.
Proof.
  intros H Hty Htx. destruct (isPartOfType_object _ _ H) as (fields & -> & _).
  unfold rebuiltPart. simpl.
  rewrite !lookupField_setField_other by assumption. reflexivity.
Qed.

(** X18. An update keeps every part in its place: the part it rebuilds
    keeps all its properties other than [type] and [text], and every other
    part is kept as it is. *)
Theorem update_keeps_other_parts partType nextText msgParts :
  forall j part,
    msgParts !! j = Some part ->
    exists part',
      nextPartsOf partType msgParts nextText !! j = Some part' /\
      (forall k, k <> "type" -> k <> "text" ->
                 getProp part' k = getProp part k) /\
      (findIndex (isPartOfType partType) msgParts <> Some j -> part' = part).
Proof.
  induction msgParts as [|x rest IH]; intros j part Hj; [discriminate|].
  rewrite nextPartsOf_cons, findIndex_cons.
  destruct (isPartOfType partType x) eqn:E.
  - destruct j as [|j]; simpl in Hj.
    + injection Hj as <-. eexists. split; [reflexivity|]. split.
      * intros k Hty Htx. apply rebuiltPart_other_field; assumption.
      * intros H. exfalso. apply H. reflexivity.
    + exists part. split; [exact Hj|]. split; reflexivity.
  - destruct j as [|j]; simpl in Hj.
    + injection Hj as <-. exists x. split; [reflexivity|]. split; reflexivity.
    + destruct (IH j part Hj) as (part' & H1 & H2 & H3).
      exists part'. split; [exact H1|]. split; [exact H2|].
      intros H. apply H3. intros Hf. apply H. rewrite Hf. reflexivity.
Qed.

(** ** The session controller: streams *)

(** X19. [openStream] on a conversation: the stream that was open is
    closed first and recorded as closed; then either a stream with a new
    handle is held and the status is [Streaming], or, the stream failing
    to open, no stream is held, the status is [Ready] and one notice is
    shown.  The transcript is kept. *)
Theorem openStream_replaces_handle cid st :
  cid <> "" ->
  closedSources (openStream cid st) = closedSources st ++ openSources st /\
  messages (openStream cid st) = messages st /\
  (if eventSourceOk env (streamUrl cid)
   then status (openStream cid st) = Streaming /\
        eventSourceRef (openStream cid st)
        = Some (mkEventSource (fresh st) (streamUrl cid)) /\
        toasts (openStream cid st) = toasts st
   else status (openStream cid st) = Ready /\
        eventSourceRef (openStream cid st) = None /\
        toasts (openStream cid st)
        = toasts st ++ [errorToast (JStr connectFailed)]).
Proof.
  intros Hcid. apply String.eqb_neq in Hcid.
  unfold openStream, openConversationStream, closeCurrent, openSources.
  rewrite Hcid.
  destruct (eventSourceRef st) as [src|] eqn:Es;
    destruct (eventSourceOk env (streamUrl cid)); simpl;
    rewrite ?app_nil_r, ?Es; repeat split; reflexivity.
Qed.

Lemma openStream_frame cid st :
  cid <> "" ->
  messages (openStream cid st) = messages st /\
  restCalls (openStream cid st) = restCalls st /\
  dataStream (openStream cid st) = dataStream st /\
  status (openStream cid st) <> Submitted /\
  (status (openStream cid st) = Streaming ->
   eventSourceRef (openStream cid st) <> None).
Proof.
  intros Hcid. apply String.eqb_neq in Hcid.
  unfold openStream, openConversationStream, closeCurrent.
  rewrite Hcid.
  destruct (eventSourceRef st) as [src|] eqn:Es;
    destruct (eventSourceOk env (streamUrl cid)); simpl;
    repeat split; try reflexivity; try discriminate.
Qed.

(** X20. [cleanup] is idempotent: the completion or error callback firing
    again closes nothing more and changes nothing. *)
Theorem cleanup_is_idempotent st : cleanup (cleanup st) = cleanup st.
Proof.
  unfold cleanup, closeCurrent.
  destruct (eventSourceRef st) as [src|] eqn:Es; simpl; rewrite ?Es;
    reflexivity.
Qed.

(** ** The session controller: sending *)

Lemma appendUserAndAssistant_spec msgParts userMessageId assistantMessageId st :
  status (appendUserAndAssistant msgParts userMessageId assistantMessageId st)
  = status st /\
  eventSourceRef
    (appendUserAndAssistant msgParts userMessageId assistantMessageId st)
  = eventSourceRef st /\
  dataStream
    (appendUserAndAssistant msgParts userMessageId assistantMessageId st)
  = dataStream st /\
  toasts (appendUserAndAssistant msgParts userMessageId assistantMessageId st)
  = toasts st /\
  closedSources
    (appendUserAndAssistant msgParts userMessageId assistantMessageId st)
  = closedSources st /\
  restCalls
    (appendUserAndAssistant msgParts userMessageId assistantMessageId st)
  = restCalls st /\
  exists u,
    role u = "user" /\ parts u = msgParts /\
    messages (appendUserAndAssistant msgParts userMessageId
                assistantMessageId st)
    = messages st ++ u :: placeholderFor assistantMessageId.
Proof.
  unfold appendUserAndAssistant, placeholderFor.
  destruct userMessageId as [|c r];
    destruct assistantMessageId as [[|c' r']|]; simpl;
    repeat (split; [reflexivity|]); eexists (mkChatMessage _ _ _ _);
    (split; [|split]); try reflexivity; simpl;
    rewrite <- ?app_assoc; reflexivity.
Qed.

Lemma sendMessageFailed_spec e st :
  status (sendMessageFailed e st) = Ready /\
  messages (sendMessageFailed e st) = messages st /\
  eventSourceRef (sendMessageFailed e st) = eventSourceRef st /\
  dataStream (sendMessageFailed e st) = dataStream st /\
  closedSources (sendMessageFailed e st) = closedSources st /\
  restCalls (sendMessageFailed e st) = restCalls st /\
  exists notice,
    toasts (sendMessageFailed e st) = toasts st ++ [notice] /\
    toast_type notice = "error".
Proof.
  unfold sendMessageFailed. simpl. repeat (split; [reflexivity|]).
  eexists. split; reflexivity.
Qed.

(** The outcomes of a message [sendMessage] accepts: the [catch], or the
    turns appended and then a stream opened or the status reset. *)
Lemma sendMessage_cases msgParts st :
  status st = Ready ->
  messageContent msgParts <> "" ->
  (exists e,
      sendMessage msgParts st
      = sendMessageFailed e (accepted st (messageContent msgParts))) \/
  (exists st3 cid userMessageId assistantMessageId (go : bool),
      cid <> "" /\
      prepared (accepted st (messageContent msgParts)) st3 /\
      sendMessage msgParts st
      = if go && isTruthyId assistantMessageId
        then openStream cid
               (appendUserAndAssistant msgParts userMessageId
                  assistantMessageId st3)
        else setStatus Ready
               (appendUserAndAssistant msgParts userMessageId
                  assistantMessageId st3)).
Proof.
  intros Hs Hc. apply String.eqb_neq in Hc.
  unfold sendMessage, accepted, sendCall. rewrite Hs, Hc. cbv zeta.
  simpl conversationIdRef.
  destruct (conversationIdRef st) as [[|c r]|].
  - destruct (api_postConversations env (messageContent msgParts))
      as [e|[[[[|c' r']|] start began]|]];
      try (left; eexists; reflexivity).
    right. destruct start as [[[u|] a]|];
      [ eexists _, (String c' r'), _, a, began
      | eexists _, (String c' r'), _, a, began
      | eexists _, (String c' r'), _, None, began ];
      (split; [discriminate|]); (split; [|reflexivity]);
      repeat split; reflexivity.
  - destruct (api_postConversationsMessages env (String c r)
                (messageContent msgParts)) as [e|data];
      [left; eexists; reflexivity|].
    right. destruct data as [[[u|] a]|];
      [ eexists _, (String c r), _, a, true
      | eexists _, (String c r), _, a, true
      | eexists _, (String c r), _, None, true ];
      (split; [discriminate|]); (split; [|reflexivity]);
      repeat split; reflexivity.
  - destruct (api_postConversations env (messageContent msgParts))
      as [e|[[[[|c' r']|] start began]|]];
      try (left; eexists; reflexivity).
    right. destruct start as [[[u|] a]|];
      [ eexists _, (String c' r'), _, a, began
      | eexists _, (String c' r'), _, a, began
      | eexists _, (String c' r'), _, None, began ];
      (split; [discriminate|]); (split; [|reflexivity]);
      repeat split; reflexivity.
Qed.

(** X21. A message that is accepted never leaves the status at
    [Submitted]: when [sendMessage] returns, the status is [Streaming] with
    a stream open, or [Ready]. *)
Theorem send_never_stays_submitted msgParts st :
  status st = Ready ->
  status (sendMessage msgParts st) = Ready \/
  (status (sendMessage msgParts st) = Streaming /\
   eventSourceRef (sendMessage msgParts st) <> None).
Proof.
  intros Hs.
  destruct (String.eqb_spec (messageContent msgParts) "") as [Hc|Hc].
  - left. unfold sendMessage. rewrite Hs, Hc. simpl. exact Hs.
  - destruct (sendMessage_cases msgParts st Hs Hc)
      as [(e & ->) | (st3 & cid & uid & aid & go & Hcid & _ & ->)].
    + left. apply sendMessageFailed_spec.
    + destruct (go && isTruthyId aid); [|left; reflexivity].
      destruct (openStream_frame cid
                  (appendUserAndAssistant msgParts uid aid st3) Hcid)
        as (_ & _ & _ & Hsub & Hstr).
      destruct (status (openStream cid
                          (appendUserAndAssistant msgParts uid aid st3)));
        [left; reflexivity | congruence | right; split; [reflexivity|]].
      apply Hstr. reflexivity.
Qed.


(** X23. [sendMessage] only appends to the transcript: nothing, or the
    user turn with the parts of the message, or that turn and the
    placeholder of the assistant turn. *)
Theorem send_appends_turns msgParts st :
  messages (sendMessage msgParts st) = messages st \/
  exists u assistantMessageId,
    role u = "user" /\ parts u = msgParts /\
    messages (sendMessage msgParts st)
    = messages st ++ u :: placeholderFor assistantMessageId.
Proof.
  destruct (status st) eqn:Hs;
    try (left; unfold sendMessage; rewrite Hs; reflexivity).
  destruct (String.eqb_spec (messageContent msgParts) "") as [Hc|Hc].
  - left. unfold sendMessage. rewrite Hs, Hc. reflexivity.
  - destruct (sendMessage_cases msgParts st Hs Hc)
      as [(e & ->) | (st3 & cid & uid & aid & go & Hcid & Hp & ->)].
    + left. reflexivity.
    + right. destruct Hp as (_ & Hm & _).
      destruct (appendUserAndAssistant_spec msgParts uid aid st3)
        as (_ & _ & _ & _ & _ & _ & u & Hu1 & Hu2 & Hu3).
      exists u, aid. split; [exact Hu1|]. split; [exact Hu2|].
      destruct (go && isTruthyId aid).
      * rewrite (proj1 (openStream_frame cid _ Hcid)), Hu3, Hm. reflexivity.
      * simpl. rewrite Hu3, Hm. reflexivity.
Qed.




(** X25. When the backend call of an accepted message throws, the status
    is back to [Ready] and one error notice is shown; the transcript is
    kept, no stream is opened or closed, and the call stays recorded. *)
Theorem failed_send_resets msgParts st e :
  status st = Ready ->
  messageContent msgParts <> "" ->
  sendThrows st (messageContent msgParts) e ->
  status (sendMessage msgParts st) = Ready /\
  messages (sendMessage msgParts st) = messages st /\
  eventSourceRef (sendMessage msgParts st) = eventSourceRef st /\
  closedSources (sendMessage msgParts st) = closedSources st /\
  toasts (sendMessage msgParts st)
  = toasts st ++ [errorToast (JStr match e with
                                   | ThrownError message => message
                                   | ThrownValue _ => sendFailedDefault
                                   end)].
Proof.
  intros Hs Hc He. apply String.eqb_neq in Hc.
  unfold sendThrows in He. unfold sendMessage. rewrite Hs, Hc. cbv zeta.
  simpl conversationIdRef.
  destruct (conversationIdRef st) as [[|c r]|]; rewrite He;
    repeat split; reflexivity.
Qed.

Lemma trimStart_allSpace s : allSpace s -> trimStart s = "".
Proof.
  induction s as [|c s IH]; intros H; [reflexivity|]. simpl.
  rewrite (H c) by (simpl; rewrite Ascii.eqb_refl; reflexivity).
  apply IH. intros x Hx. apply H. simpl. rewrite Hx. apply orb_true_r.
Qed.

Lemma allSpace_app a b : allSpace a -> allSpace b -> allSpace (a ++ b).
Proof.
  intros Ha Hb c. rewrite includesChar_app. intros H.
  apply orb_prop in H as [H|H]; [apply Ha | apply Hb]; exact H.
Qed.

Lemma allSpace_join l :
  (forall t, In t l -> allSpace t) ->
  allSpace (joinStrings (String newline EmptyString) l).
Proof.
  induction l as [|x l IH]; intros H.
  - intros c Hc. discriminate.
  - destruct l as [|y l]; [apply H; left; reflexivity|].
    change (joinStrings (String newline "") (x :: y :: l))
      with (x ++ String newline "" ++ joinStrings (String newline "") (y :: l))%string.
    apply allSpace_app; [apply H; left; reflexivity|].
    apply allSpace_app.
    + intros c Hc. simpl in Hc. rewrite orb_false_r in Hc.
      apply Ascii.eqb_eq in Hc. subst c. reflexivity.
    + apply IH. intros t Ht. apply H. right. exact Ht.
Qed.

(** X26. A message whose texts hold white space only, or that has no text
    part at all, is refused like an empty one: in status [Ready] it shows
    the notice that asks for a content, and nothing else changes. *)
Theorem blank_message_is_rejected msgParts st :
  status st = Ready ->
  (forall t, In t (messageTexts msgParts) -> allSpace t) ->
  sendMessage msgParts st = toast (errorToast (JStr enterContent)) st.
Proof.
  intros Hs Hall. unfold sendMessage. rewrite Hs.
  unfold messageContent, trim.
  rewrite (trimStart_allSpace _ (allSpace_join _ Hall)). reflexivity.
Qed.

(** ** The session controller: history *)

Lemma onlyFresh_refl st : onlyFresh st st.
Proof. repeat split; reflexivity. Qed.

Lemma onlyFresh_trans a b c : onlyFresh a b -> onlyFresh b c -> onlyFresh a c.
Proof.
  intros (H1 & H2 & H3 & H4 & H5 & H6 & H7 & H8 & H9)
         (G1 & G2 & G3 & G4 & G5 & G6 & G7 & G8 & G9).
  unfold onlyFresh. rewrite G1, G2, G3, G4, G5, G6, G7, G8, G9.
  repeat split; assumption.
Qed.

(** What [mapBackendMessage] gives: a turn with the item's text and role
    and one part of each kind, or an engine error that is not a "not
    found"; the state changes at most in the supply of identifiers. *)
Lemma mapBackendMessage_spec item st :
  onlyFresh st (snd (mapBackendMessage item st)) /\
  match fst (mapBackendMessage item st) with
  | inr m =>
      itemMaps item /\ turnText m = itemText item /\
      role m = itemRole item /\ singleParts m
  | inl e => ~ itemMaps item /\ isNotFound e = false
  end.
Proof.
  unfold mapBackendMessage, itemMaps.
  destruct (reasoningOf item) as [e|reasoning] eqn:Er.
  - split; [apply onlyFresh_refl|]. simpl. split.
    + intros [[x Hx] _]. discriminate.
    + unfold reasoningOf in Er.
      destruct (events item) as [evs|]; [|discriminate].
      destruct (mapOption eventReasoning evs); [|injection Er as <-; reflexivity].
      destruct (joinWith _ _); [discriminate|].
      injection Er as <-. reflexivity.
  - destruct (created_at item) as [[|c r]|] eqn:Ec.
    + destruct (message_id item); simpl;
        (split; [repeat split; reflexivity|]);
        (split; [split; [eexists; reflexivity | intros ? ? [=]]|]);
        repeat split; auto.
    + destruct (toISOString env (String c r)) as [stamp|] eqn:Et.
      * destruct (message_id item); simpl;
          (split; [repeat split; reflexivity|]);
          (split; [split; [eexists; reflexivity
                          | intros ? ? [= <- <-]; eexists; exact Et]|]);
          repeat split; auto.
      * split; [apply onlyFresh_refl|]. simpl. split; [|reflexivity].
        intros [_ H]. destruct (H c r eq_refl) as [stamp Hs]. congruence.
    + destruct (message_id item); simpl;
        (split; [repeat split; reflexivity|]);
        (split; [split; [eexists; reflexivity | intros ? ? [=]]|]);
        repeat split; auto.
Qed.

Lemma mapBackendMessages_spec items : forall st,
  onlyFresh st (snd (mapBackendMessages items st)) /\
  match fst (mapBackendMessages items st) with
  | inr history =>
      Forall itemMaps items /\
      map turnText history = map itemText items /\
      map role history = map itemRole items /\
      Forall singleParts history
  | inl e => ~ Forall itemMaps items /\ isNotFound e = false
  end.
Proof.
  induction items as [|item rest IH]; intros st.
  - simpl. split; [apply onlyFresh_refl|]. repeat split; constructor.
  - simpl. pose proof (mapBackendMessage_spec item st) as [Hf Hm].
    destruct (mapBackendMessage item st) as [[e|m] st1]; simpl in *.
    + split; [exact Hf|]. destruct Hm as [Hn He]. split; [|exact He].
      intros H. apply Forall_cons_iff in H as [H _]. apply Hn, H.
    + destruct (IH st1) as [Hf' Hr].
      destruct (mapBackendMessages rest st1) as [[e|history] st2];
        simpl in *; (split; [apply (onlyFresh_trans _ _ _ Hf Hf')|]).
      * destruct Hr as [Hn He]. split; [|exact He].
        intros H. apply Forall_cons_iff in H as [_ H]. apply Hn, H.
      * destruct Hm as (Hi & Ht & Hro & Hs).
        destruct Hr as (Hall & Hts & Hrs & Hss).
        rewrite Ht, Hts, Hro, Hrs. repeat split; constructor; assumption.
Qed.

(** X27. A history fetch that answers is all or nothing.  When every item
    can be mapped, the transcript becomes the history: one turn per item,
    in order, each with the item's content as its text, the item's role
    (an assistant's when it gives none) and one part of each kind, and no
    notice is shown.  When one item cannot be mapped, the transcript is
    kept whole and one error notice is shown. *)
Theorem history_is_all_or_nothing cid st data :
  cid <> "" ->
  api_getConversationsMessages env cid = inr data ->
  (Forall itemMaps (match data with Some l => l | None => [] end) /\
   map turnText (messages (loadMessages cid st))
   = map itemText (match data with Some l => l | None => [] end) /\
   map role (messages (loadMessages cid st))
   = map itemRole (match data with Some l => l | None => [] end) /\
   Forall singleParts (messages (loadMessages cid st)) /\
   toasts (loadMessages cid st) = toasts st) \/
  (~ Forall itemMaps (match data with Some l => l | None => [] end) /\
   messages (loadMessages cid st) = messages st /\
   exists notice,
     toasts (loadMessages cid st) = toasts st ++ [notice] /\
     toast_type notice = "error").
Proof.
  intros Hcid Hapi. apply String.eqb_neq in Hcid.
  unfold loadMessages. rewrite Hcid, Hapi. cbv zeta.
  set (items := match data with Some l => l | None => [] end).
  set (st1 := issue (GetConversationsMessages cid) st).
  destruct (mapBackendMessages_spec items st1) as [Hf Hr].
  destruct (mapBackendMessages items st1) as [[e|history] st2]; simpl in *.
  - right. destruct Hr as [Hn He]. split; [exact Hn|].
    destruct Hf as (_ & Hm & _ & _ & _ & Ht & _).
    unfold historyFailed, isNotFound in *.
    destruct (thrownMessage e) as [text|];
      [rewrite He|]; simpl; rewrite Hm, Ht;
      (split; [reflexivity|]); eexists; split; reflexivity.
  - left. destruct Hr as (Hall & Hts & Hrs & Hss).
    destruct Hf as (_ & _ & _ & _ & _ & Ht & _).
    repeat split; assumption.
Qed.

Lemma historyFailed_frame e st :
  status (historyFailed e st) = status st /\
  eventSourceRef (historyFailed e st) = eventSourceRef st /\
  closedSources (historyFailed e st) = closedSources st /\
  restCalls (historyFailed e st) = restCalls st.
Proof.
  unfold historyFailed. destruct (thrownMessage e) as [text|];
    [destruct (testHttp404 text)|]; repeat split; reflexivity.
Qed.

Lemma loadMessages_frame cid st :
  status (loadMessages cid st) = status st /\
  eventSourceRef (loadMessages cid st) = eventSourceRef st /\
  closedSources (loadMessages cid st) = closedSources st /\
  restCalls (loadMessages cid st)
  = restCalls st ++ (if String.eqb cid "" then []
                     else [GetConversationsMessages cid]).
Proof.
  unfold loadMessages. destruct (String.eqb cid "") eqn:Hcid.
  - rewrite app_nil_r. repeat split; reflexivity.
  - set (st1 := issue (GetConversationsMessages cid) st).
    destruct (api_getConversationsMessages env cid) as [e|data].
    + destruct (historyFailed_frame e st1) as (H1 & H2 & H3 & H4).
      rewrite H1, H2, H3, H4. repeat split; reflexivity.
    + destruct (mapBackendMessages_spec
                  (match data with Some l => l | None => [] end) st1)
        as [(G1 & _ & _ & G4 & _ & _ & G7 & G8 & _) _].
      destruct (mapBackendMessages _ st1) as [[e|history] st2]; simpl in *.
      * destruct (historyFailed_frame e st2) as (H1 & H2 & H3 & H4).
        rewrite H1, H2, H3, H4, G1, G4, G7, G8. repeat split; reflexivity.
      * rewrite G1, G4, G7, G8. repeat split; reflexivity.
Qed.

(** X28. [stop] closes the open stream, discards its handle and sets the
    status to [Ready]; it then fetches the history of the conversation
    again, with one REST call, when there is a conversation, and calls
    nothing otherwise. *)
Theorem stop_closes_and_refetches st :
  eventSourceRef (stop st) = None /\
  status (stop st) = Ready /\
  closedSources (stop st) = closedSources st ++ openSources st /\
  restCalls (stop st) = restCalls st ++ refetchCalls st.
Proof.
  unfold stop, refetchCalls, openSources. cbv zeta.
  set (st1 := setStatus Ready (closeCurrent st)).
  assert (H1 : eventSourceRef st1 = None)
    by (unfold st1, closeCurrent; destruct (eventSourceRef st) eqn:E;
        simpl; [reflexivity | exact E]).
  assert (H2 : closedSources st1
               = closedSources st
                 ++ match eventSourceRef st with Some s => [s] | None => [] end)
    by (unfold st1, closeCurrent; destruct (eventSourceRef st);
        simpl; rewrite ?app_nil_r; reflexivity).
  assert (H3 : conversationIdRef st1 = conversationIdRef st)
    by (unfold st1, closeCurrent; destruct (eventSourceRef st); reflexivity).
  assert (H4 : restCalls st1 = restCalls st)
    by (unfold st1, closeCurrent; destruct (eventSourceRef st); reflexivity).
  rewrite H3. destruct (conversationIdRef st) as [[|c r]|].
  - rewrite app_nil_r. repeat split; assumption.
  - destruct (loadMessages_frame (String c r) st1) as (G1 & G2 & G3 & G4).
    rewrite G1, G2, G3, G4, H1, H2, H4. repeat split; reflexivity.
  - rewrite app_nil_r. repeat split; assumption.
Qed.

(** ** The status and the stream *)

Lemma handleStreamPayload_status payload st :
  status (stateOf (handleStreamPayload payload st)) = status st \/
  status (stateOf (handleStreamPayload payload st)) = Ready.
Proof.
  apply (aggregated_ind_keep
           (fun s => status s = status st \/ status s = Ready) st _);
    [|apply handleStreamPayload_aggregated|left; reflexivity].
  intros s s' [f st0|partType updater st0|notice st0] H.
  - exact H.
  - rewrite (proj1 (proj2 (updateLastAssistantPart_log _ _ _))). exact H.
  - right. reflexivity.
Qed.

Lemma handleStreamPayload_streaming payload st :
  streamingHasSource st ->
  streamingHasSource (stateOf (handleStreamPayload payload st)).
Proof.
  unfold streamingHasSource. intros H Hs.
  destruct (handleStreamPayload_sameSession payload st)
    as (_ & _ & -> & _).
  destruct (handleStreamPayload_status payload st) as [E|E];
    rewrite E in Hs; [exact (H Hs) | discriminate].
Qed.

Lemma cleanup_status st : status (cleanup st) = Ready.
Proof. reflexivity. Qed.

(** X29. In status [Streaming] a stream is held, and every operation of
    the component keeps it so: sending, stopping, opening a stream,
    loading the history, handling a payload or a frame, and a transport
    error. *)
Theorem streaming_keeps_its_source st :
  streamingHasSource st ->
  (forall msgParts, streamingHasSource (sendMessage msgParts st)) /\
  streamingHasSource (stop st) /\
  (forall cid, streamingHasSource (openStream cid st)) /\
  (forall cid, streamingHasSource (loadMessages cid st)) /\
  (forall payload,
      streamingHasSource (stateOf (handleStreamPayload payload st))) /\
  (forall name data,
      streamingHasSource (fst (forward chatStreamOptions name data st))) /\
  streamingHasSource (fst (sourceError chatStreamOptions st)).
Proof.
  intros Hinv. repeat split.
  - intros msgParts. unfold streamingHasSource.
    destruct (status st) eqn:Hs.
    + destruct (String.eqb_spec (messageContent msgParts) "") as [Hc|Hc].
      * unfold sendMessage. rewrite Hs, Hc. simpl. congruence.
      * destruct (sendMessage_cases msgParts st Hs Hc)
          as [(e & ->) | (st3 & cid & uid & aid & go & Hcid & _ & ->)];
          [simpl; discriminate|].
        destruct (go && isTruthyId aid); [|simpl; discriminate].
        apply (openStream_frame cid _ Hcid).
    + unfold sendMessage. rewrite Hs. simpl. rewrite Hs. discriminate.
    + unfold sendMessage. rewrite Hs. simpl. intros _. apply Hinv, Hs.
  - unfold streamingHasSource, stop. cbv zeta.
    destruct (conversationIdRef (setStatus Ready (closeCurrent st)))
      as [[|c r]|]; try (simpl; discriminate).
    rewrite (proj1 (loadMessages_frame _ _)). simpl. discriminate.
  - intros cid. destruct (String.eqb_spec cid "") as [->|Hcid].
    + exact Hinv.
    + unfold streamingHasSource. apply (openStream_frame cid st Hcid).
  - intros cid. unfold streamingHasSource.
    destruct (loadMessages_frame cid st) as (-> & -> & _). exact Hinv.
  - intros payload. apply handleStreamPayload_streaming, Hinv.
  - intros name data. unfold forward.
    destruct data as [[|c r]|]; try exact Hinv.
    destruct (JSON_parse (String c r)) as [payload|]; [|exact Hinv].
    simpl onEvent. simpl onComplete. cbv beta iota.
    pose proof (handleStreamPayload_streaming payload st Hinv) as H.
    destruct (handleStreamPayload payload st) as [w1|w1]; simpl in *;
      [|exact H].
    destruct (isGraphEnd chatStreamOptions payload); simpl;
      [unfold streamingHasSource; simpl; discriminate | exact H].
  - unfold streamingHasSource. simpl. discriminate.
Qed.

(** ** From a message to its streamed answer *)



(** ** The failure [loadMessages] takes for "not found" *)






End Client.

(** * The properties on the sample data *)

Lemma sampleParse_size text v :
  sampleParse text = Some v -> jsize v <= String.length text.
Proof.
  unfold sampleParse.
  assert (Hall : Forall (fun members =>
                           jsize (objectValue members)
                           <= String.length (objectText members))
                   sampleObjects)
    by (repeat constructor; vm_compute; lia).
  induction Hall as [|members rest Hm _ IH]; simpl; [discriminate|].
  destruct (String.eqb_spec text (objectText members)) as [->|_].
  - intros [= <-]. exact Hm.
  - exact IH.
Qed.

(** Scenario 2 of the specification: two deltas give ["Hello"]. *)
Example scenario_two_deltas :
  map turnText (messages (applyEvents sampleParse [helPayload; loPayload]
                            streamingState))
  = ["buy 1 ETH"; "Hello"].
Proof. vm_compute. reflexivity. Qed.

(** Scenario 3: the final text overwrites the streamed text, the final
    reasoning is recorded. *)
Example scenario_final_answer :
  map (fun m => (turnText m, previousTextOf ReasoningPart (parts m)))
    (messages (applyEvents sampleParse [helPayload; finalPayload]
                 streamingState))
  = [("buy 1 ETH", ""); ("Final answer", "because...")].
Proof. vm_compute. reflexivity. Qed.

(** Scenario 4: a chain error notifies with the payload's message and
    resets the status; the stream stays open. *)
Example scenario_chain_error :
  let st := stateOf (handleStreamPayload sampleParse chainErrorPayload
                       streamingState) in
  toasts st = [errorToast (JStr "rate limited")] /\
  status st = Ready /\
  eventSourceRef st = Some sampleSource.
Proof. vm_compute. repeat split; reflexivity. Qed.

(** Scenario 6: a manual stop closes the stream, resets the status and
    fetches the history again. *)
Example scenario_stop :
  let st := stop sampleEnv streamingState in
  eventSourceRef st = None /\
  closedSources st = [sampleSource] /\
  status st = Ready /\
  restCalls st = [PostConversations "buy 1 ETH"; GetConversationsMessages "c1"].
Proof. vm_compute. repeat split; reflexivity. Qed.

(** The precedence of the candidates: [chunk.content] before
    [data.content]. *)
Example normalizer_precedence :
  extractStreamText sampleParse
    (JObj [("chunk", JObj [("content", JStr "A")]);
           ("data", JObj [("content", JStr "B")])])
  = Some "A".
Proof. vm_compute. reflexivity. Qed.

(** A string that holds a JSON object is parsed and normalized in turn. *)
Example ensureString_parses_json :
  ensureString sampleParse (JStr (objectText [("content", "Hi")])) = Some "Hi".
Proof. vm_compute. reflexivity. Qed.

Lemma deltas_concatenate_then_final_replaces_witness :
  (messages streamingState = [userTurn] ++ [assistantTurn] /\
   role assistantTurn = "assistant" /\
   forallb isDeltaEvent [helPayload; loPayload] = true) /\
  exists m',
    messages (applyEvents sampleParse [helPayload; loPayload] streamingState)
    = [userTurn] ++ [m'] /\
    role m' = "assistant" /\
    turnText m'
    = (turnText assistantTurn
       ++ concatStrings (map (deltaOf sampleParse) [helPayload; loPayload]))%string /\
    forall final text,
      eventTypeOf final = Some "on_chat_model_end" ->
      extractFinalText sampleParse final = Some text ->
      exists m'',
        messages (stateOf (handleStreamPayload sampleParse final
                             (applyEvents sampleParse [helPayload; loPayload]
                                streamingState)))
        = [userTurn] ++ [m''] /\
        role m'' = "assistant" /\
        turnText m'' = text.
Proof.
  split.
  - repeat split; reflexivity.
  - apply (deltas_concatenate_then_final_replaces sampleParse
             [helPayload; loPayload] streamingState [userTurn] assistantTurn);
      reflexivity.
Defined.

Lemma completion_iff_graph_end_witness :
  (graphEndText <> "" /\
   sampleParse graphEndText = Some graphEndPayload /\
   onComplete (chatStreamOptions sampleParse)
   = Some (fun st => Normal (cleanup st))) /\
  In CallComplete
    (snd (forward sampleParse (chatStreamOptions sampleParse) "on_chain_end"
            (Some graphEndText) streamingState)).
Proof.
  assert (H1 : graphEndText <> "") by discriminate.
  assert (H2 : sampleParse graphEndText = Some graphEndPayload)
    by (vm_compute; reflexivity).
  assert (H3 : onComplete (chatStreamOptions sampleParse)
               = Some (fun st => Normal (cleanup st))) by reflexivity.
  split; [repeat split; assumption|].
  destruct (completion_iff_graph_end sampleParse
              (chatStreamOptions sampleParse) "on_chain_end" graphEndText
              graphEndPayload (fun st => Normal (cleanup st)) streamingState
              H1 H2 H3) as (_ & Hif & _).
  apply Hif.
  - intros f [= <-]. eexists. vm_compute. reflexivity.
  - split; [reflexivity|]. exists "ReAct Agent".
    split; [reflexivity | left; reflexivity].
Defined.

(** Completion exclusivity on the sample data: a chain end of an agent
    outside the set invokes the event callback only. *)
Example other_agent_does_not_complete :
  snd (forward sampleParse (chatStreamOptions sampleParse) "on_chain_end"
         (Some (objectText [("event", "on_chain_end"); ("name", "Planner")]))
         streamingState)
  = [CallEvent (objectValue [("event", "on_chain_end"); ("name", "Planner")])
       "on_chain_end"].
Proof. vm_compute. reflexivity. Qed.

(** The [try] of [forward] also covers the event callback: when it throws
    on a graph end, the completion callback is not reached. *)
Example throwing_event_callback_skips_completion :
  snd (forward sampleParse throwingOptions "on_chain_end" (Some graphEndText)
         readyState)
  = [CallEvent graphEndPayload "on_chain_end"].
Proof. vm_compute. reflexivity. Qed.

Lemma ensureString_terminates_witness :
  exists r : option string,
    (forall fuel, jsize (JStr (objectText [("content", "Hi")])) < fuel ->
                  ensureString_fuel sampleParse fuel
                    (JStr (objectText [("content", "Hi")])) = Some r) /\
    ensureString sampleParse (JStr (objectText [("content", "Hi")])) = r /\
    (isArray (JStr (objectText [("content", "Hi")])) = true -> r <> Some "") /\
    (isString (JStr (objectText [("content", "Hi")])) = true -> r <> None).
Proof.
  apply (ensureString_terminates sampleParse sampleParse_size).
Defined.

(** The empty string is a result of [ensureString]. *)
Lemma ensureString_returns_empty_string :
  ensureString sampleParse (JStr "") = Some "" /\
  ensureString sampleParse (JObj [("text", JStr "")]) = Some "".
Proof. split; vm_compute; reflexivity. Qed.

Lemma textless_delta_keeps_transcript_witness :
  (isDeltaEvent emptyPayload = true /\
   blank (extractStreamText sampleParse emptyPayload) /\
   (forall c r, reasoningDeltaOf emptyPayload <> JStr (String c r))) /\
  messages (stateOf (handleStreamPayload sampleParse emptyPayload streamingState))
  = messages streamingState /\
  transcriptRenders
    (stateOf (handleStreamPayload sampleParse emptyPayload streamingState))
  = transcriptRenders streamingState.
Proof.
  assert (H1 : isDeltaEvent emptyPayload = true) by reflexivity.
  assert (H2 : blank (extractStreamText sampleParse emptyPayload))
    by (left; vm_compute; reflexivity).
  assert (H3 : forall c r, reasoningDeltaOf emptyPayload <> JStr (String c r))
    by (intros c r; vm_compute; discriminate).
  split; [repeat split; assumption|].
  destruct (textless_delta_keeps_transcript sampleParse emptyPayload
              streamingState H1 H2 H3) as (_ & Hm & Hr & _).
  split; assumption.
Defined.

(** A streaming delta without text but with a reasoning delta changes the
    transcript. *)
Lemma textless_delta_with_reasoning_changes_transcript :
  isDeltaEvent reasoningPayload = true /\
  extractStreamText sampleParse reasoningPayload = None /\
  messages (stateOf (handleStreamPayload sampleParse reasoningPayload
                       streamingState))
  <> messages streamingState /\
  transcriptRenders (stateOf (handleStreamPayload sampleParse reasoningPayload
                                streamingState))
  = S (transcriptRenders streamingState).
Proof.
  repeat split; try (vm_compute; reflexivity).
  vm_compute. discriminate.
Qed.

Lemma update_touches_last_turn_only_witness :
  (appendTextDelta "Hel" streamingState = streamingState \/
   exists init m nextParts,
     messages streamingState = init ++ [m] /\ role m = "assistant" /\
     messages (appendTextDelta "Hel" streamingState)
     = init ++ [withParts m nextParts]) /\
  (messages streamingState = [] ->
   appendTextDelta "Hel" streamingState = streamingState) /\
  (forall init m, messages streamingState = init ++ [m] ->
                  role m <> "assistant" ->
                  appendTextDelta "Hel" streamingState = streamingState).
Proof.
  apply (update_touches_last_turn_only TextPart
           (fun previous => Some (previous ++ "Hel")%string) streamingState).
Defined.

Lemma transport_error_closes_stream_witness :
  eventSourceRef streamingState = Some sampleSource /\
  snd (sourceError (chatStreamOptions sampleParse) streamingState) = [CallError] /\
  eventSourceRef (fst (sourceError (chatStreamOptions sampleParse) streamingState))
  = None /\
  closedSources (fst (sourceError (chatStreamOptions sampleParse) streamingState))
  = closedSources streamingState ++ [sampleSource] /\
  status (fst (sourceError (chatStreamOptions sampleParse) streamingState)) = Ready /\
  messages (fst (sourceError (chatStreamOptions sampleParse) streamingState))
  = messages streamingState /\
  toasts (fst (sourceError (chatStreamOptions sampleParse) streamingState))
  = toasts streamingState.
Proof.
  split; [reflexivity|].
  apply (transport_error_closes_stream sampleParse streamingState sampleSource).
  reflexivity.
Defined.

(** A transport error on an open stream shows no notification. *)
Lemma transport_error_shows_no_notification :
  eventSourceRef streamingState = Some sampleSource /\
  snd (sourceError (chatStreamOptions sampleParse) streamingState) = [CallError] /\
  toasts (fst (sourceError (chatStreamOptions sampleParse) streamingState)) = [].
Proof. repeat split; vm_compute; reflexivity. Qed.

Lemma rejected_send_only_notifies_witness :
  (status streamingState <> Ready \/
   messageContent [JObj [("type", JStr "text"); ("text", JStr "sell")]] = "") /\
  exists notice,
    sendMessage sampleEnv [JObj [("type", JStr "text"); ("text", JStr "sell")]]
      streamingState
    = toast notice streamingState /\
    toast_type notice = "error".
Proof.
  assert (H : status streamingState <> Ready \/
              messageContent [JObj [("type", JStr "text"); ("text", JStr "sell")]]
              = "") by (left; discriminate).
  split; [exact H|].
  destruct (rejected_send_only_notifies sampleEnv
              [JObj [("type", JStr "text"); ("text", JStr "sell")]]
              streamingState H) as (notice & E & Ht & _).
  exists notice. split; assumption.
Defined.

Lemma dropped_frame_is_ignored_witness :
  droppedFrame sampleParse (Some "{not json") /\
  (forall name w,
      forward sampleParse (chatStreamOptions sampleParse) name
        (Some "{not json") w = (w, [])) /\
  (forall channel before after w,
      processFrames sampleParse (chatStreamOptions sampleParse)
        (before ++ (channel, Some "{not json") :: after) w
      = processFrames sampleParse (chatStreamOptions sampleParse)
          (before ++ after) w).
Proof.
  assert (H : droppedFrame sampleParse (Some "{not json"))
    by (right; right; eexists; split; reflexivity).
  split; [exact H|].
  apply (dropped_frame_is_ignored sampleParse (chatStreamOptions sampleParse)
           (Some "{not json") H).
Defined.

(** A failure other than a 404 keeps the transcript and notifies. *)
Example history_500_notifies :
  messages (loadMessages sampleEnv "c1" readyState) = messages readyState /\
  toasts (loadMessages sampleEnv "c1" readyState)
  = [errorToast (JStr "HTTP 500: Internal Server Error")].
Proof. split; vm_compute; reflexivity. Qed.

Lemma extractors_first_nonempty_witness :
  (forall text v, sampleParse text = Some v -> jsize v <= String.length text) /\
  extractStreamText sampleParse helPayload <> Some "" /\
  extractFinalText sampleParse helPayload <> Some "" /\
  isFirstText sampleParse (streamCandidates helPayload)
    (extractStreamText sampleParse helPayload).
Proof.
  split; [exact sampleParse_size|].
  destruct (extractors_first_nonempty sampleParse sampleParse_size helPayload)
    as (_ & H1 & H2 & H3 & _).
  split; [exact H1|]. split; [exact H2 | exact H3].
Defined.

(** * Further properties on the sample data *)

Lemma allSpace_blank : allSpace " ".
Proof.
  intros c H. simpl in H. rewrite orb_false_r in H.
  apply Ascii.eqb_eq in H. subst c. reflexivity.
Qed.

Lemma allSpace_two_blanks : allSpace "  ".
Proof.
  intros c H. simpl in H. rewrite orb_false_r, orb_diag in H.
  apply Ascii.eqb_eq in H. subst c. reflexivity.
Qed.

Lemma default_names_distinct : List.NoDup DEFAULT_SSE_EVENTS.
Proof.
  unfold DEFAULT_SSE_EVENTS.
  repeat (apply List.NoDup_cons; [simpl; intuition discriminate|]).
  apply List.NoDup_nil.
Qed.

Lemma streamingState_single_parts : Forall singleParts (messages streamingState).
Proof. repeat constructor. Qed.

Lemma ensureString_plain_string_witness :
  (looksLikeJson (trim "Hello") = false /\
   includesChar squote "Hello" = false /\
   includesChar backslash "Hello" = false) /\
  ensureString sampleParse (JStr "Hello") = Some "Hello".
Proof.
  split; [repeat split; reflexivity|].
  apply (ensureString_plain_string sampleParse "Hello"); reflexivity.
Defined.

Lemma python_text_fragment_witness :
  (quoteFree "[{" /\ allSpace " " /\ quoteFree "Hel\nlo" /\ quoteFree "}]") /\
  extractTextFromPythonLiteral "[{'text': 'Hel\nlo'}]"
  = Some (normalizeEscapes "Hel\nlo").
Proof.
  split; [repeat split; try reflexivity; exact allSpace_blank|].
  apply (python_text_fragment "[{" " " "Hel\nlo" "}]");
    try reflexivity; exact allSpace_blank.
Defined.

Lemma python_content_fragment_witness :
  (quoteFree "AIMessage(" /\ quoteFree "hi there" /\ "hi there" <> "" /\
   quoteFree ")") /\
  extractTextFromPythonLiteral "AIMessage(content='hi there')"
  = Some (normalizeEscapes "hi there").
Proof.
  split; [repeat split; try reflexivity; discriminate|].
  apply (python_content_fragment "AIMessage(" "hi there" ")");
    try reflexivity; discriminate.
Defined.

Lemma extractors_need_an_object_witness :
  (forall fields, JStr "Hello" <> JObj fields) /\
  extractStreamText sampleParse (JStr "Hello") = None /\
  extractFinalText sampleParse (JArr [JStr "Hello"]) = None.
Proof.
  split; [discriminate|]. split.
  - apply (extractors_need_an_object sampleParse (JStr "Hello")). discriminate.
  - apply (extractors_need_an_object sampleParse (JArr [JStr "Hello"])).
    discriminate.
Defined.

Lemma unsubscribed_channel_is_ignored_witness :
  ~ In "ping" (names (chatStreamOptions sampleParse)) /\
  dispatchFrame sampleParse (chatStreamOptions sampleParse) "ping"
    (Some graphEndText) streamingState
  = (streamingState, []).
Proof.
  assert (H : ~ In "ping" (names (chatStreamOptions sampleParse)))
    by (simpl; intuition discriminate).
  split; [exact H|].
  apply (unsubscribed_channel_is_ignored sampleParse
           (chatStreamOptions sampleParse) "ping" (Some graphEndText)
           streamingState H).
Defined.

Lemma subscribed_channel_forwards_once_witness :
  (List.NoDup (names (chatStreamOptions sampleParse)) /\
   In "on_chain_end" (names (chatStreamOptions sampleParse))) /\
  dispatchFrame sampleParse (chatStreamOptions sampleParse) "on_chain_end"
    (Some graphEndText) streamingState
  = forward sampleParse (chatStreamOptions sampleParse) "on_chain_end"
      (Some graphEndText) streamingState.
Proof.
  assert (H1 : List.NoDup (names (chatStreamOptions sampleParse)))
    by exact default_names_distinct.
  assert (H2 : In "on_chain_end" (names (chatStreamOptions sampleParse)))
    by (simpl; tauto).
  split; [split; assumption|].
  apply (subscribed_channel_forwards_once sampleParse
           (chatStreamOptions sampleParse) "on_chain_end" (Some graphEndText)
           streamingState H1 H2).
Defined.

Lemma forward_calls_event_first_witness :
  (graphEndText <> "" /\
   sampleParse graphEndText = Some graphEndPayload /\
   onEvent throwingOptions = Some (fun _ _ st => Throw st)) /\
  (snd (forward sampleParse throwingOptions "message" (Some graphEndText)
          readyState)
   = [CallEvent graphEndPayload "message"] \/
   snd (forward sampleParse throwingOptions "message" (Some graphEndText)
          readyState)
   = [CallEvent graphEndPayload "message"; CallComplete]).
Proof.
  assert (H1 : graphEndText <> "") by discriminate.
  assert (H2 : sampleParse graphEndText = Some graphEndPayload)
    by (vm_compute; reflexivity).
  split; [repeat split; assumption|].
  apply (forward_calls_event_first sampleParse throwingOptions "message"
           graphEndText graphEndPayload (fun _ _ st => Throw st) readyState
           H1 H2 eq_refl).
Defined.

Lemma stream_payload_keeps_single_parts_witness :
  Forall singleParts (messages streamingState) /\
  Forall singleParts
    (messages (stateOf (handleStreamPayload sampleParse reasoningPayload
                          streamingState))).
Proof.
  split; [exact streamingState_single_parts|].
  apply (stream_payload_keeps_single_parts sampleParse reasoningPayload
           streamingState streamingState_single_parts).
Defined.

Lemma unhandled_event_is_only_logged_witness :
  (truthy toolPayload = true /\
   eventTypeOf toolPayload = Some "on_tool_start" /\
   inList "on_tool_start" handledEventTypes = false) /\
  exists st',
    handleStreamPayload sampleParse toolPayload streamingState = Normal st' /\
    dataStream st' = dataStream streamingState ++ [toolPayload] /\
    messages st' = messages streamingState /\
    transcriptRenders st' = transcriptRenders streamingState /\
    status st' = status streamingState /\
    toasts st' = toasts streamingState.
Proof.
  split; [repeat split; reflexivity|].
  apply (unhandled_event_is_only_logged sampleParse toolPayload
           "on_tool_start" streamingState); reflexivity.
Defined.

Lemma chain_error_notifies_and_keeps_stream_witness :
  eventTypeOf chainErrorPayload = Some "on_chain_error" /\
  exists st',
    handleStreamPayload sampleParse chainErrorPayload streamingState
    = Normal st' /\
    toasts st'
    = toasts streamingState ++ [errorToast (chainErrorMessage chainErrorPayload)] /\
    status st' = Ready /\
    messages st' = messages streamingState /\
    eventSourceRef st' = eventSourceRef streamingState /\
    closedSources st' = closedSources streamingState.
Proof.
  split; [reflexivity|].
  apply (chain_error_notifies_and_keeps_stream sampleParse chainErrorPayload
           streamingState).
  reflexivity.
Defined.

Lemma graph_end_closes_stream_witness :
  (graphEndText <> "" /\
   sampleParse graphEndText = Some graphEndPayload /\
   isGraphEnd (chatStreamOptions sampleParse) graphEndPayload = true /\
   eventSourceRef streamingState = Some sampleSource) /\
  eventSourceRef
    (fst (forward sampleParse (chatStreamOptions sampleParse) "on_chain_end"
            (Some graphEndText) streamingState)) = None /\
  status
    (fst (forward sampleParse (chatStreamOptions sampleParse) "on_chain_end"
            (Some graphEndText) streamingState)) = Ready.
Proof.
  assert (H1 : graphEndText <> "") by discriminate.
  assert (H2 : sampleParse graphEndText = Some graphEndPayload)
    by (vm_compute; reflexivity).
  assert (H3 : isGraphEnd (chatStreamOptions sampleParse) graphEndPayload = true)
    by reflexivity.
  split; [repeat split; assumption|].
  destruct (graph_end_closes_stream sampleParse "on_chain_end" graphEndText
              graphEndPayload streamingState sampleSource H1 H2 H3 eq_refl)
    as (G1 & _ & G3 & _).
  split; assumption.
Defined.

Lemma final_text_forgets_deltas_witness :
  "Final answer" <> "" /\
  messages (replaceFinalText "Final answer"
              (appendTextDelta "Hel" streamingState))
  = messages (replaceFinalText "Final answer" streamingState).
Proof.
  split; [discriminate|].
  apply (final_text_forgets_deltas "Hel" "Final answer" streamingState).
  discriminate.
Defined.

Lemma update_keeps_other_parts_witness :
  annotatedParts !! 0
  = Some (JObj [("type", JStr "text"); ("text", JStr "Hel");
                ("state", JStr "done")]) /\
  exists part',
    nextPartsOf TextPart annotatedParts "Hello" !! 0 = Some part' /\
    (forall k, k <> "type" -> k <> "text" ->
               getProp part' k
               = getProp (JObj [("type", JStr "text"); ("text", JStr "Hel");
                                ("state", JStr "done")]) k) /\
    (findIndex (isPartOfType TextPart) annotatedParts <> Some 0 ->
     part' = JObj [("type", JStr "text"); ("text", JStr "Hel");
                   ("state", JStr "done")]).
Proof.
  split; [reflexivity|].
  apply (update_keeps_other_parts TextPart "Hello" annotatedParts 0).
  reflexivity.
Defined.

Lemma openStream_replaces_handle_witness :
  "c1" <> "" /\
  closedSources (openStream sampleEnv "c1" streamingState) = [sampleSource] /\
  eventSourceRef (openStream sampleEnv "c1" streamingState)
  = Some (mkEventSource 1 (streamUrl sampleEnv "c1")) /\
  status (openStream sampleEnv "c1" streamingState) = Streaming.
Proof.
  split; [discriminate|].
  destruct (openStream_replaces_handle sampleEnv "c1" streamingState
              ltac:(discriminate)) as (H1 & _ & H3).
  split; [exact H1|]. simpl in H3. destruct H3 as (G1 & G2 & _).
  split; assumption.
Defined.

Lemma send_never_stays_submitted_witness :
  status readyState = Ready /\
  (status (sendMessage workingEnv sellMessage readyState) = Ready \/
   (status (sendMessage workingEnv sellMessage readyState) = Streaming /\
    eventSourceRef (sendMessage workingEnv sellMessage readyState) <> None)).
Proof.
  split; [reflexivity|].
  apply (send_never_stays_submitted workingEnv sellMessage readyState).
  reflexivity.
Defined.



Lemma failed_send_resets_witness :
  (status readyState = Ready /\
   messageContent sellMessage <> "" /\
   sendThrows sampleEnv readyState (messageContent sellMessage)
     (ThrownError "HTTP 503")) /\
  status (sendMessage sampleEnv sellMessage readyState) = Ready /\
  messages (sendMessage sampleEnv sellMessage readyState)
  = messages readyState /\
  toasts (sendMessage sampleEnv sellMessage readyState)
  = toasts readyState ++ [errorToast (JStr "HTTP 503")].
Proof.
  assert (H1 : messageContent sellMessage <> "") by (vm_compute; discriminate).
  assert (H2 : sendThrows sampleEnv readyState (messageContent sellMessage)
                 (ThrownError "HTTP 503")) by reflexivity.
  split; [repeat split; assumption|].
  destruct (failed_send_resets sampleEnv sellMessage readyState
              (ThrownError "HTTP 503") eq_refl H1 H2)
    as (G1 & G2 & _ & _ & G5).
  repeat split; assumption.
Defined.

Lemma blank_message_is_rejected_witness :
  (status readyState = Ready /\
   forall t, In t (messageTexts blankMessage) -> allSpace t) /\
  sendMessage workingEnv blankMessage readyState
  = toast (errorToast (JStr enterContent)) readyState.
Proof.
  assert (H : forall t, In t (messageTexts blankMessage) -> allSpace t).
  { intros t [<-|[]]. exact allSpace_two_blanks. }
  split; [split; [reflexivity | exact H]|].
  apply (blank_message_is_rejected workingEnv blankMessage readyState eq_refl H).
Defined.

Lemma sampleHistory_maps : Forall (itemMaps workingEnv) sampleHistory.
Proof.
  repeat constructor; try (eexists; reflexivity);
    intros c r H; discriminate.
Qed.

Lemma history_is_all_or_nothing_witness :
  ("c1" <> "" /\
   api_getConversationsMessages workingEnv "c1" = inr (Some sampleHistory)) /\
  map turnText (messages (loadMessages workingEnv "c1" readyState))
  = ["buy 1 ETH"; "Done."] /\
  map role (messages (loadMessages workingEnv "c1" readyState))
  = ["user"; "assistant"] /\
  toasts (loadMessages workingEnv "c1" readyState) = toasts readyState.
Proof.
  split; [split; [discriminate | reflexivity]|].
  destruct (history_is_all_or_nothing workingEnv "c1" readyState
              (Some sampleHistory) ltac:(discriminate) eq_refl)
    as [(_ & H1 & H2 & _ & H3) | (Hn & _)].
  - repeat split; assumption.
  - exfalso. apply Hn. exact sampleHistory_maps.
Defined.

Lemma streamingState_has_source : streamingHasSource streamingState.
Proof. intros _. discriminate. Qed.

Lemma streaming_keeps_its_source_witness :
  streamingHasSource streamingState /\
  streamingHasSource (sendMessage sampleEnv sellMessage streamingState) /\
  streamingHasSource (stop sampleEnv streamingState) /\
  streamingHasSource
    (stateOf (handleStreamPayload sampleParse chainErrorPayload streamingState)).
Proof.
  split; [exact streamingState_has_source|].
  destruct (streaming_keeps_its_source sampleParse sampleEnv streamingState
              streamingState_has_source) as (H1 & H2 & _ & _ & H5 & _).
  split; [apply H1|]. split; [exact H2 | apply H5].
Defined.


(** The answer streamed after the sample message: ["Hello"]. *)
Example sent_message_streams_hello :
  map turnText
    (messages (applyEvents sampleParse [helPayload; loPayload]
                 (sendMessage workingEnv sellMessage readyState)))
  = ["buy 1 ETH"; ""; " sell 1 ETH "; "Hello"].
Proof. vm_compute. reflexivity. Qed.

(** * The adapter and the history on failures *)

(** A frame that ends the graph, with an event callback that throws: the
    completion callback is configured and is not invoked. *)
Lemma graph_end_with_throwing_event_callback_skips_completion :
  sampleParse graphEndText = Some graphEndPayload /\
  getProp graphEndPayload "event" = JStr "on_chain_end" /\
  (exists n, getProp graphEndPayload "name" = JStr n /\
             In n (final throwingOptions)) /\
  onComplete throwingOptions <> None /\
  ~ In CallComplete
      (snd (forward sampleParse throwingOptions "on_chain_end"
              (Some graphEndText) readyState)).
Proof.
  split; [vm_compute; reflexivity|]. split; [reflexivity|]. split.
  - exists "ReAct Agent". split; [reflexivity | left; reflexivity].
  - split; [discriminate|]. vm_compute. intros [H|[]]. discriminate.
Qed.


